(** * The Parca scrape-job aggregation of [lib/charms/parca/v0/parca_scrape.py]

    A shallow embedding of the consumer side of the [parca_scrape] charm
    library: the sanitizer [_sanitize_scrape_configuration], the address
    resolver [_relation_hosts], the relabeling engine
    [_labeled_static_job_config] with its helpers, and the aggregation
    driver [jobs].

    Python values reach this code through [json.loads], so they are modelled
    by the type [json] below; every operation that Python would reject at
    run time (a method missing on the value at hand, iterating a value that
    is not iterable, unpacking a list of the wrong length) raises in the
    model too, with the exception Python raises. *)

From Stdlib Require Import String Ascii List Bool ZArith Lia Permutation.
Import ListNotations.

Open Scope string_scope.
Open Scope list_scope.

(** ** Python values and exceptions *)

(** What [json.loads] can return.  Numbers are integers here: no function of
    the library computes with them, they are only tested for truthiness.
    A dict is the list of its items in insertion order. *)
#[warnings="-register-all"]
Inductive json : Type :=
| JNull
| JBool (b : bool)
| JNum (n : Z)
| JStr (s : string)
| JList (l : list json)
| JDict (d : list (string * json)).

Inductive exn : Type :=
| ValueError
| TypeError
| AttributeError
| KeyError.

Inductive result (A : Type) : Type :=
| Ok (a : A)
| Raise (e : exn).

Arguments Ok {A} a.
Arguments Raise {A} e.

Definition bind {A B : Type} (m : result A) (k : A -> result B) : result B :=
  match m with
  | Ok a => k a
  | Raise e => Raise e
  end.

Notation "x <- m ;; k" := (bind m (fun x => k))
  (at level 61, m at next level, right associativity).
Notation "' p <- m ;; k" := (bind m (fun x => match x with p => k end))
  (at level 61, p pattern, m at next level, right associativity).

(** ** Dicts *)

Section Dict.
Context {V : Type}.

Definition dict := list (string * V).

(** [d.get(k)] *)
Fixpoint dict_get (d : dict) (k : string) : option V :=
  match d with
  | [] => None
  | (k', v) :: d' => if String.eqb k' k then Some v else dict_get d' k
  end.

(** [d.get(k, dflt)] *)
Definition dict_get_default (d : dict) (k : string) (dflt : V) : V :=
  match dict_get d k with
  | Some v => v
  | None => dflt
  end.

(** [d[k] = v]: an existing key keeps its place, a new one goes last. *)
Fixpoint dict_set (d : dict) (k : string) (v : V) : dict :=
  match d with
  | [] => [(k, v)]
  | (k', v') :: d' =>
      if String.eqb k' k then (k', v) :: d' else (k', v') :: dict_set d' k v
  end.

(** [d.update(other)] *)
Definition dict_update (d other : dict) : dict :=
  fold_left (fun acc kv => dict_set acc (fst kv) (snd kv)) other d.

Definition dict_keys (d : dict) : list string := map fst d.

End Dict.

Arguments dict V : clear implicits.

(** ** Builtins *)

(** [bool(v)] *)
Definition truthy (v : json) : bool :=
  match v with
  | JNull => false
  | JBool b => b
  | JNum n => negb (Z.eqb n 0)
  | JStr s => negb (String.eqb s "")
  | JList l => match l with [] => false | _ => true end
  | JDict d => match d with [] => false | _ => true end
  end.

Definition nonempty {A : Type} (l : list A) : bool :=
  match l with [] => false | _ => true end.

Fixpoint chars (s : string) : list json :=
  match s with
  | EmptyString => []
  | String c s' => JStr (String c EmptyString) :: chars s'
  end.

(** [for x in v]: the items of a list, the keys of a dict, the characters
    of a string; anything else is not iterable. *)
Definition py_iter (v : json) : result (list json) :=
  match v with
  | JList l => Ok l
  | JDict d => Ok (map JStr (dict_keys d))
  | JStr s => Ok (chars s)
  | _ => Raise TypeError
  end.

(** [s.split(sep)] for a one-character separator: the pieces between the
    occurrences of [sep], so one piece more than there are separators. *)
Fixpoint split (sep : ascii) (s : string) : list string :=
  match s with
  | EmptyString => [EmptyString]
  | String c s' =>
      if Ascii.eqb c sep then EmptyString :: split sep s'
      else match split sep s' with
           | [] => [String c EmptyString]
           | piece :: pieces => String c piece :: pieces
           end
  end.

(** The whitespace of [str.strip()], for characters with a code below 256:
    tab to carriage return, the four separators 28..31, the space,
    NEXT LINE (133) and NO-BREAK SPACE (160). *)
Definition is_space (c : ascii) : bool :=
  let n := nat_of_ascii c in
  (((9 <=? n) && (n <=? 13)) || ((28 <=? n) && (n <=? 32))
  || (n =? 133) || (n =? 160))%nat.

Fixpoint lstrip (s : string) : string :=
  match s with
  | EmptyString => EmptyString
  | String c s' => if is_space c then lstrip s' else s
  end.

Fixpoint rstrip (s : string) : string :=
  match s with
  | EmptyString => EmptyString
  | String c s' =>
      match rstrip s' with
      | EmptyString => if is_space c then EmptyString else String c EmptyString
      | r => String c r
      end
  end.

(** [s.strip()] *)
Definition strip (s : string) : string := rstrip (lstrip s).

Fixpoint count_char (c : ascii) (s : string) : nat :=
  match s with
  | EmptyString => 0
  | String c' s' => (if Ascii.eqb c' c then 1 else 0) + count_char c s'
  end.

(** ** Constants of the module *)

Definition ALLOWED_KEYS : list string :=
  ["job_name"; "static_configs"; "scrape_interval"; "scrape_timeout"].

Definition DEFAULT_JOB : dict json :=
  [("static_configs", JList [JDict [("targets", JList [JStr "*:80"])]])].

(** ** Relation data *)

(** A remote unit of a relation: the name Juju gives it and its unit
    databag (strings to strings). *)
Record Unit : Type := {
  name : string;
  unit_data : dict string
}.

(** A relation as [_static_scrape_config] reads it: the remote units, and
    the two keys of the application databag after [json.loads] (["[]"] and
    ["{}"] when the key is absent).  [relation.units] is a set: the list
    holds its units in the order in which one iteration of it yields them,
    an order that belongs to the process and not to the relation. *)
Record Relation : Type := {
  units : list Unit;
  scrape_jobs : json;
  scrape_metadata : json
}.

(** ** The sanitizer *)

(** [_sanitize_scrape_configuration]: a copy of [DEFAULT_JOB] updated with
    the items of [job] whose key is allowed.  [job.items()] needs a dict. *)
Definition _sanitize_scrape_configuration (job : json) : result (dict json) :=
  match job with
  | JDict items =>
      let allowed :=
        dict_update []
          (filter (fun kv => existsb (String.eqb (fst kv)) ALLOWED_KEYS) items) in
      Ok (dict_update DEFAULT_JOB allowed)
  | _ => Raise AttributeError
  end.

(** ** The address resolver *)

(** [a or b] on strings that may be absent. *)
Definition str_or (a b : option string) : option string :=
  match a with
  | Some s => if String.eqb s "" then b else a
  | None => b
  end.

Definition str_truthy (a : option string) : bool :=
  match a with
  | Some s => negb (String.eqb s "")
  | None => false
  end.

(** [_relation_hosts]: unit name to unit address, for the units that give
    both. *)
Definition _relation_hosts (relation : Relation) : dict string :=
  fold_left
    (fun hosts u =>
       let unit_name :=
         str_or (dict_get (unit_data u) "parca_scrape_unit_name") (Some (name u)) in
       let unit_address :=
         str_or (dict_get (unit_data u) "parca_scrape_unit_address")
                (dict_get (unit_data u) "parca_scrape_host") in
       match unit_name, unit_address with
       | Some n, Some a =>
           if str_truthy unit_name && str_truthy unit_address
           then dict_set hosts n a else hosts
       | _, _ => hosts
       end)
    (units relation) [].

(** ** The relabeling engine *)

Definition BASE_SOURCE_LABELS : list string :=
  ["juju_model"; "juju_model_uuid"; "juju_application"].

(** The dict [instance_relabel_config], for the value its [source_labels]
    list has when it is appended to the relabeling rules. *)
Definition instance_relabel_config (source_labels : list string) : json :=
  JDict [("source_labels", JList (map JStr source_labels));
         ("separator", JStr "_");
         ("target_label", JStr "instance");
         ("regex", JStr "(.*)")].

(** [host, port = target.split(":")] *)
Definition split_host_port (target : json) : result (string * string) :=
  match target with
  | JStr s =>
      match split ":" s with
      | [host; port] => Ok (host, port)
      | _ => Raise ValueError
      end
  | _ => Raise AttributeError
  end.

(** The inner loop over [all_targets]: the ports of the wildcard targets
    and the targets that name a host. *)
Fixpoint partition_targets (all_targets : list json)
    (ports : list string) (unitless_targets : list json)
    : result (list string * list json) :=
  match all_targets with
  | [] => Ok (ports, unitless_targets)
  | target :: rest =>
      '(host, port) <- split_host_port target ;;
      if String.eqb (strip host) "*"
      then partition_targets rest (ports ++ [strip port]) unitless_targets
      else partition_targets rest ports (unitless_targets ++ [target])
  end.

Section Engine.
(** [JujuTopology] comes from [charms.observability_libs], outside this
    library.  The engine uses two of its properties, both computed from
    the [scrape_metadata] dict and both able to raise:
    [JujuTopology.from_dict(md).identifier] and
    [ProviderTopology.from_dict(md).label_matcher_dict]. *)
Variable identifier : json -> result string.
Variable label_matcher_dict : json -> result (dict json).

(** [str.format] of a value that is not a string, left abstract. *)
Variable py_str : json -> string.

Definition format_value (v : json) : string :=
  match v with
  | JStr s => s
  | _ => py_str v
  end.

(** [_set_juju_labels]: [labels.copy()] then [.update(...)]; only a dict
    has both methods, and the method is looked up before its argument is
    evaluated. *)
Definition _set_juju_labels (labels scrape_md : json) : result (dict json) :=
  match labels with
  | JDict d =>
      topology <- label_matcher_dict scrape_md ;;
      Ok (dict_update d topology)
  | _ => Raise AttributeError
  end.

(** [_labeled_unitless_config] *)
Definition _labeled_unitless_config (targets : list json)
    (labels scrape_md : json) : result json :=
  juju_labels <- _set_juju_labels labels scrape_md ;;
  Ok (JDict [("targets", JList targets); ("labels", JDict juju_labels)]).

(** [_labeled_unit_config] *)
Definition _labeled_unit_config (unit_name host_address : string)
    (ports : list string) (labels scrape_md : json) : result json :=
  juju_labels <- _set_juju_labels labels scrape_md ;;
  let juju_labels := dict_set juju_labels "juju_unit" (JStr unit_name) in
  let targets :=
    if nonempty ports
    then map (fun port => JStr (host_address ++ ":" ++ port)) ports
    else [JStr host_address] in
  Ok (JDict [("labels", JDict juju_labels); ("targets", JList targets)]).

(** The state the two loops of [_labeled_static_job_config] update:
    the list [labeled_job["static_configs"]] and the list
    [instance_relabel_config["source_labels"]]. *)
Definition loop_state : Type := (list json * list string)%type.

Definition add_juju_unit (source_labels : list string) : list string :=
  if existsb (String.eqb "juju_unit") source_labels
  then source_labels
  else source_labels ++ ["juju_unit"].

(** [for host_name, host_address in hosts.items(): ...] *)
Fixpoint hosts_loop (hosts : dict string) (ports : list string)
    (labels scrape_md : json) (st : loop_state) : result loop_state :=
  match hosts with
  | [] => Ok st
  | (host_name, host_address) :: rest =>
      static_config <-
        _labeled_unit_config host_name host_address ports labels scrape_md ;;
      hosts_loop rest ports labels scrape_md
        (fst st ++ [static_config], add_juju_unit (snd st))
  end.

(** The body of [for static_config in static_configs: ...] *)
Definition static_config_step (static_configs : json) (hosts : dict string)
    (scrape_md : json) (static_config : json) (st : loop_state)
    : result loop_state :=
  match static_config with
  | JDict sc =>
      let labels :=
        if truthy static_configs
        then dict_get_default sc "labels" (JDict [])
        else JDict [] in
      let all_targets := dict_get_default sc "targets" (JList []) in
      targets <- py_iter all_targets ;;
      '(ports, unitless_targets) <- partition_targets targets [] [] ;;
      st1 <-
        (if nonempty unitless_targets
         then
           unitless_config <-
             _labeled_unitless_config unitless_targets labels scrape_md ;;
           Ok (fst st ++ [unitless_config], snd st)
         else Ok st) ;;
      hosts_loop hosts ports labels scrape_md st1
  | _ => Raise AttributeError
  end.

Fixpoint static_configs_loop (static_configs : json) (hosts : dict string)
    (scrape_md : json) (items : list json) (st : loop_state)
    : result loop_state :=
  match items with
  | [] => Ok st
  | static_config :: rest =>
      st' <- static_config_step static_configs hosts scrape_md static_config st ;;
      static_configs_loop static_configs hosts scrape_md rest st'
  end.

(** [name = job.get("job_name")] and the line after it. *)
Definition resolved_job_name (job : dict json) (job_name_prefix : string)
    : string :=
  match dict_get job "job_name" with
  | Some n =>
      if truthy n then job_name_prefix ++ "_" ++ format_value n
      else job_name_prefix
  | None => job_name_prefix
  end.

(** [relabel_configs = job.get("relabel_configs", [])] followed by
    [relabel_configs.append(rule)]. *)
Definition append_relabel (job : dict json) (rule : json)
    : result (list json) :=
  match dict_get job "relabel_configs" with
  | None => Ok [rule]
  | Some (JList rules) => Ok (rules ++ [rule])
  | Some _ => Raise AttributeError
  end.

(** [_labeled_static_job_config].  [job.get("static_configs")] is [None]
    when the key is absent, which the [for] cannot iterate. *)
Definition _labeled_static_job_config (job : dict json)
    (job_name_prefix : string) (hosts : dict string) (scrape_md : json)
    : result (dict json) :=
  let job_name := resolved_job_name job job_name_prefix in
  let labeled_job := dict_set job "job_name" (JStr job_name) in
  let static_configs := dict_get_default job "static_configs" JNull in
  items <- py_iter static_configs ;;
  '(entries, source_labels) <-
    static_configs_loop static_configs hosts scrape_md items
      ([], BASE_SOURCE_LABELS) ;;
  relabel_configs <- append_relabel job (instance_relabel_config source_labels) ;;
  Ok (dict_set
        (dict_set labeled_job "static_configs" (JList entries))
        "relabel_configs" (JList relabel_configs)).

(** ** The aggregator *)

(** [for job in scrape_jobs: ...] of [_static_scrape_config] *)
Fixpoint label_jobs (raw_jobs : list json) (job_name_prefix : string)
    (hosts : dict string) (scrape_md : json) : result (list json) :=
  match raw_jobs with
  | [] => Ok []
  | job :: rest =>
      sanitized <- _sanitize_scrape_configuration job ;;
      config <-
        _labeled_static_job_config sanitized job_name_prefix hosts scrape_md ;;
      configs <- label_jobs rest job_name_prefix hosts scrape_md ;;
      Ok (JDict config :: configs)
  end.

(** [_static_scrape_config] *)
Definition _static_scrape_config (relation : Relation) : result json :=
  if negb (nonempty (units relation)) then Ok (JList [])
  else if negb (truthy (scrape_jobs relation)) then Ok (JList [])
  else if negb (truthy (scrape_metadata relation))
       then Ok (scrape_jobs relation)
  else
    job_name_prefix <- identifier (scrape_metadata relation) ;;
    let hosts := _relation_hosts relation in
    raw_jobs <- py_iter (scrape_jobs relation) ;;
    configs <- label_jobs raw_jobs job_name_prefix hosts (scrape_metadata relation) ;;
    Ok (JList configs).

(** The loop of [jobs]; [list.extend] iterates its argument. *)
Fixpoint jobs_loop (relations : list Relation) (acc : list json)
    : result (list json) :=
  match relations with
  | [] => Ok acc
  | relation :: rest =>
      static_scrape_jobs <- _static_scrape_config relation ;;
      if truthy static_scrape_jobs
      then
        items <- py_iter static_scrape_jobs ;;
        jobs_loop rest (acc ++ items)
      else jobs_loop rest acc
  end.

(** [ProfilingEndpointConsumer.jobs] *)
Definition jobs (relations : list Relation) : result (list json) :=
  jobs_loop relations [].

End Engine.

(** ** The expansion in the words of the specification

    The entries the relabeling engine is specified to emit for one target
    group, written from the description of the algorithm rather than from
    the loops above; the theorems below compare the two. *)

Definition host_of (s : string) : string := hd "" (split ":" s).
Definition port_of (s : string) : string := nth 1 (split ":" s) "".

(** A wildcard target: the host part is literally [*]. *)
Definition is_wildcard (target : json) : bool :=
  match target with
  | JStr s => String.eqb (strip (host_of s)) "*"
  | _ => false
  end.

(** The ports of the wildcard targets of a group, in order. *)
Definition wildcard_ports (targets : list json) : list string :=
  flat_map
    (fun t =>
       match t with
       | JStr s => if is_wildcard t then [strip (port_of s)] else []
       | _ => []
       end)
    targets.

(** The fully-qualified targets of a group, unchanged and in order. *)
Definition qualified_targets (targets : list json) : list json :=
  filter (fun t => negb (is_wildcard t)) targets.

(** The one entry for the fully-qualified targets of a group. *)
Definition qualified_entry (topology user_labels : dict json)
    (targets : list json) : json :=
  JDict [("targets", JList targets);
         ("labels", JDict (dict_update user_labels topology))].

(** The entry of one member (name, address) for a group. *)
Definition member_entry (topology user_labels : dict json)
    (ports : list string) (member : string * string) : json :=
  JDict [("labels",
          JDict (dict_set (dict_update user_labels topology)
                          "juju_unit" (JStr (fst member))));
         ("targets",
          JList (if nonempty ports
                 then map (fun port => JStr (snd member ++ ":" ++ port)) ports
                 else [JStr (snd member)]))].

Definition group_labels (group : json) : dict json :=
  match group with
  | JDict sc =>
      match dict_get sc "labels" with
      | Some (JDict user_labels) => user_labels
      | _ => []
      end
  | _ => []
  end.

Definition group_targets (group : json) : list json :=
  match group with
  | JDict sc =>
      match dict_get sc "targets" with
      | Some (JList targets) => targets
      | _ => []
      end
  | _ => []
  end.

(** Fully-qualified entry first (if the group has such targets), then one
    entry per member in the order of the membership snapshot. *)
Definition spec_group_entries (topology : dict json) (hosts : dict string)
    (group : json) : list json :=
  let targets := group_targets group in
  let user_labels := group_labels group in
  (if nonempty (qualified_targets targets)
   then [qualified_entry topology user_labels (qualified_targets targets)]
   else [])
  ++ map (member_entry topology user_labels (wildcard_ports targets)) hosts.

(** A target of the [host:port] shape. *)
Definition valid_target (target : json) : Prop :=
  exists s, target = JStr s /\ count_char ":" s = 1.

(** A target group the engine accepts: a dict whose ["labels"], when
    given, is a dict and whose ["targets"], when given, is a list of
    [host:port] strings. *)
Definition valid_group (group : json) : Prop :=
  exists sc,
    group = JDict sc /\
    (dict_get sc "labels" = None \/
     exists user_labels, dict_get sc "labels" = Some (JDict user_labels)) /\
    (dict_get sc "targets" = None \/
     exists targets,
       dict_get sc "targets" = Some (JList targets) /\
       Forall valid_target targets).

(** The label [k] of a static entry. *)
Definition entry_label (entry : json) (k : string) : option json :=
  match entry with
  | JDict e =>
      match dict_get e "labels" with
      | Some (JDict labels) => dict_get labels k
      | _ => None
      end
  | _ => None
  end.

(** An entry built by [_labeled_unit_config]: its dict starts with the
    ["labels"] key, where [_labeled_unitless_config] starts with
    ["targets"]. *)
Definition is_member_entry (entry : json) : bool :=
  match entry with
  | JDict (("labels", _) :: _) => true
  | _ => false
  end.

(** The name of a concrete job. *)
Definition job_name_of (job : json) : option json :=
  match job with
  | JDict d => dict_get d "job_name"
  | _ => None
  end.

(** What the name of a template adds to the job name prefix. *)
Definition name_suffix (py_str : json -> string) (job : dict json) : string :=
  match dict_get job "job_name" with
  | Some n => if truthy n then "_" ++ format_value py_str n else ""
  | None => ""
  end.

(** The rules a template brings: [job.get("relabel_configs", [])]. *)
Definition existing_rules (job : dict json) : json :=
  dict_get_default job "relabel_configs" (JList []).

(** The concrete job of a valid template: resolved name, specified
    entries, and the uniqueness rule after the rules of the template. *)
Definition spec_job (py_str : json -> string) (topo : dict json)
    (hosts : dict string) (job : dict json) (prefix : string)
    (groups rules : list json) : dict json :=
  dict_set
    (dict_set
       (dict_set job "job_name" (JStr (prefix ++ name_suffix py_str job)))
       "static_configs"
       (JList (flat_map (spec_group_entries topo hosts) groups)))
    "relabel_configs"
    (JList (rules ++
            [instance_relabel_config
               (BASE_SOURCE_LABELS ++
                if nonempty groups && nonempty hosts
                then ["juju_unit"] else [])])).

(** ** Scenarios *)

Module Scenario.

Definition md_field (md : json) (k : string) : result string :=
  match md with
  | JDict d =>
      match dict_get d k with
      | Some (JStr s) => Ok s
      | Some _ => Raise TypeError
      | None => Raise KeyError
      end
  | _ => Raise TypeError
  end.

(** Modelled from the spec: [JujuTopology.identifier], the scope
    identifier, "a stable string combining group/instance/subgroup,
    excluding member name"; here the three fields joined by
    underscores. *)
Definition identifier (md : json) : result string :=
  model <- md_field md "model" ;;
  uuid <- md_field md "model_uuid" ;;
  app <- md_field md "application" ;;
  Ok (model ++ "_" ++ uuid ++ "_" ++ app)%string.

(** Modelled from the spec: [JujuTopology.label_matcher_dict], the label
    set, "key to value pairs for group/instance/subgroup, excluding member
    name", under the label names the uniqueness rule reads. *)
Definition label_matcher_dict (md : json) : result (dict json) :=
  model <- md_field md "model" ;;
  uuid <- md_field md "model_uuid" ;;
  app <- md_field md "application" ;;
  Ok [("juju_model", JStr model);
      ("juju_model_uuid", JStr uuid);
      ("juju_application", JStr app)].

(** The scenarios only format strings. *)
Definition py_str (v : json) : string := "".

Definition metadata : json :=
  JDict [("model", JStr "model");
         ("model_uuid", JStr "uuid123");
         ("application", JStr "app")].

Definition topology : dict json :=
  [("juju_model", JStr "model");
   ("juju_model_uuid", JStr "uuid123");
   ("juju_application", JStr "app")].

Definition other_metadata : json :=
  JDict [("model", JStr "model");
         ("model_uuid", JStr "uuid123");
         ("application", JStr "db")].

Definition unit0 : Unit :=
  {| name := "app/0";
     unit_data := [("parca_scrape_unit_address", "10.0.0.5");
                   ("parca_scrape_unit_name", "app/0")] |}.

Definition unit1 : Unit :=
  {| name := "app/1";
     unit_data := [("parca_scrape_unit_address", "10.0.0.6");
                   ("parca_scrape_unit_name", "app/1")] |}.

(** A unit that has not published its address yet. *)
Definition silent_unit : Unit := {| name := "app/2"; unit_data := [] |}.

Definition hosts : dict string := [("app/0", "10.0.0.5"); ("app/1", "10.0.0.6")].

Definition wildcard_job : dict json :=
  [("static_configs", JList [JDict [("targets", JList [JStr "*:8080"])]])].

Definition second_wildcard_job : dict json :=
  [("static_configs", JList [JDict [("targets", JList [JStr "*:9090"])]])].

Definition mixed_job : dict json :=
  [("static_configs",
    JList [JDict [("targets", JList [JStr "10.1.32.215:7000"; JStr "*:8000"]);
                  ("labels", JDict [("some-key", JStr "some-value")])]])].

Definition named_job (n : string) : dict json :=
  [("job_name", JStr n);
   ("static_configs", JList [JDict [("targets", JList [JStr "*:7000"])]])].

Definition bad_job : dict json :=
  [("static_configs", JList [JDict [("targets", JList [JStr "bad-target"])]])].

Definition ipv6_job : dict json :=
  [("static_configs", JList [JDict [("targets", JList [JStr "[::1]:8080"])]])].

(** A group whose own labels use the member-name label key and a
    topology label key. *)
Definition rogue_label_job : dict json :=
  [("static_configs",
    JList [JDict [("targets", JList [JStr "10.1.32.215:7000"]);
                  ("labels", JDict [("juju_unit", JStr "rogue");
                                    ("juju_model", JStr "mine")])]])].

Definition with_rules_job : dict json :=
  [("static_configs", JList [JDict [("targets", JList [JStr "*:8080"])]]);
   ("relabel_configs", JList [JDict [("target_label", JStr "team")]])].

(** A raw job with a key the sanitizer would drop. *)
Definition raw_job : dict json :=
  [("job_name", JStr "x"); ("metrics_path", JStr "/debug")].

Definition publisher (us : list Unit) (js : list (dict json)) (md : json)
    : Relation :=
  {| units := us; scrape_jobs := JList (map JDict js); scrape_metadata := md |}.

Definition expand :=
  _labeled_static_job_config label_matcher_dict py_str.

(** What [with_rules_job] and [named_job "first"] expand to. *)
Definition with_rules_out : dict json :=
  Eval vm_compute in
    match expand with_rules_job "p" hosts metadata with
    | Ok out => out
    | Raise _ => []
    end.

Definition first_out : dict json :=
  Eval vm_compute in
    match expand (named_job "first") "p" hosts metadata with
    | Ok out => out
    | Raise _ => []
    end.

(** Two publishers, the second with a template that has a target
    without a colon next to a good one. *)
Definition fleet_with_bad_target : list Relation :=
  [publisher [unit0] [wildcard_job] other_metadata;
   publisher [unit0; unit1] [bad_job; wildcard_job] metadata].

Definition fleet : list Relation :=
  [publisher [unit0] [wildcard_job] other_metadata;
   publisher [unit0; unit1] [mixed_job; named_job "first"] metadata].

Definition aggregate := jobs identifier label_matcher_dict py_str.

End Scenario.

(** ** The rest of the library and the charm

    The functions below are the ones the relabeling engine does not
    reach: the validation both constructors start with, the provider side
    ([ProfilingEndpointProvider]) and the password handling of
    [src/charm.py]. *)

(** The two values that [_relation_hosts] computes for a unit, under the
    names they have there. *)
Definition unit_name_of (u : Unit) : option string :=
  str_or (dict_get (unit_data u) "parca_scrape_unit_name") (Some (name u)).

Definition unit_address_of (u : Unit) : option string :=
  str_or (dict_get (unit_data u) "parca_scrape_unit_address")
         (dict_get (unit_data u) "parca_scrape_host").

(** [self._jobs] as [ProfilingEndpointProvider.__init__] computes it: the
    sanitized jobs, in order, [jobs=None] standing for no job. *)
Fixpoint sanitize_all (jobs : list json) : result (list (dict json)) :=
  match jobs with
  | [] => Ok []
  | job :: rest =>
      sanitized <- _sanitize_scrape_configuration job ;;
      others <- sanitize_all rest ;;
      Ok (sanitized :: others)
  end.

Definition provider_jobs (jobs : option (list json))
    : result (list (dict json)) :=
  sanitize_all (match jobs with None => [] | Some js => js end).

(** [ProfilingEndpointProvider._scrape_jobs] *)
Definition _scrape_jobs (self_jobs : list (dict json)) : list (dict json) :=
  if nonempty self_jobs then self_jobs else [DEFAULT_JOB].

(** The body of the loop of [_set_unit_ip]: the two writes to the unit
    databag of one relation.  [fqdn] is what [socket.getfqdn()] returned. *)
Definition write_unit_ip (fqdn unit_name : string) (bag : dict string)
    : dict string :=
  dict_set (dict_set bag "parca_scrape_unit_address" fqdn)
           "parca_scrape_unit_name" unit_name.

(** [_set_unit_ip], on the unit databags of the relations of the charm. *)
Definition _set_unit_ip (fqdn unit_name : string) (bags : list (dict string))
    : list (dict string) :=
  map (write_unit_ip fqdn unit_name) bags.

(** *** Validation of the relation *)

Module RelationRole.
Inductive t : Type := peer | requires | provides.
End RelationRole.

Module Meta.
Record RelationMeta : Type := { interface_name : string }.

Record ContainerMeta : Type := { container_name : string }.

(** What the library reads of [charm.meta]. *)
Record t : Type := {
  relations : dict RelationMeta;
  provides : dict RelationMeta;
  requires : dict RelationMeta;
  containers : dict ContainerMeta;
  series : list string
}.
End Meta.

(** The exceptions of the validation, with the fields their constructors
    store; the last one is the bare [Exception] of the final [else]. *)
Inductive relation_error : Type :=
| RelationNotFoundError (relation_name : string)
| RelationInterfaceMismatchError
    (relation_name expected_relation_interface actual_relation_interface : string)
| RelationRoleMismatchError
    (relation_name : string)
    (expected_relation_role actual_relation_role : RelationRole.t)
| UnexpectedRelationDirection (expected_relation_role : RelationRole.t).

Definition has_key {V : Type} (d : dict V) (k : string) : bool :=
  match dict_get d k with Some _ => true | None => false end.

(** [_validate_relation_by_interface_and_direction]: [None] when it
    returns, the exception when it raises. *)
Definition _validate_relation_by_interface_and_direction (meta : Meta.t)
    (relation_name expected_relation_interface : string)
    (expected_relation_role : RelationRole.t) : option relation_error :=
  match dict_get (Meta.relations meta) relation_name with
  | None => Some (RelationNotFoundError relation_name)
  | Some relation =>
      let actual_relation_interface := Meta.interface_name relation in
      if negb (String.eqb actual_relation_interface expected_relation_interface)
      then Some (RelationInterfaceMismatchError
                   relation_name expected_relation_interface
                   actual_relation_interface)
      else
        match expected_relation_role with
        | RelationRole.provides =>
            if negb (has_key (Meta.provides meta) relation_name)
            then Some (RelationRoleMismatchError
                         relation_name RelationRole.provides RelationRole.requires)
            else None
        | RelationRole.requires =>
            if negb (has_key (Meta.requires meta) relation_name)
            then Some (RelationRoleMismatchError
                         relation_name RelationRole.requires RelationRole.provides)
            else None
        | RelationRole.peer =>
            Some (UnexpectedRelationDirection expected_relation_role)
        end
  end.

Definition RELATION_INTERFACE_NAME : string := "parca_scrape".

(** *** The refresh events of the provider *)

(** The events the provider can come to observe: [update_status], the
    [pebble_ready] of a container, or an event of the caller. *)
Inductive BoundEvent : Type :=
| update_status
| pebble_ready (container : string)
| caller_event (id : nat).

(** The [refresh_event] argument: [None], one event, or a list. *)
Inductive refresh_argument : Type :=
| NoRefreshEvent
| OneRefreshEvent (ev : BoundEvent)
| RefreshEvents (evs : list BoundEvent).

(** [s.replace(old, new)] for one-character [old] and [new]. *)
Fixpoint replace (old new : ascii) (s : string) : string :=
  match s with
  | EmptyString => EmptyString
  | String c s' =>
      String (if Ascii.eqb c old then new else c) (replace old new s')
  end.

(** The end of [ProfilingEndpointProvider.__init__]: the events on which
    [_set_unit_ip] is observed.  A single event is truthy, [None] and the
    empty list are not. *)
Definition refresh_events (meta : Meta.t) (refresh_event : refresh_argument)
    : list BoundEvent :=
  let default :=
    if Nat.eqb (length (Meta.containers meta)) 1
    then
      if existsb (String.eqb "kubernetes") (Meta.series meta)
      then [update_status]
      else
        match Meta.containers meta with
        | (_, container) :: _ =>
            [pebble_ready (replace "-" "_" (Meta.container_name container))]
        | [] => []
        end
    else [update_status] in
  match refresh_event with
  | NoRefreshEvent => default
  | RefreshEvents [] => default
  | OneRefreshEvent ev => [ev]
  | RefreshEvents evs => evs
  end.

(** *** The charm *)

Module ZincCharm.

Definition ascii_letters : string :=
  "abcdefghijklmnopqrstuvwxyzABCDEFGHIJKLMNOPQRSTUVWXYZ".

Definition digits : string := "0123456789".

Definition _log_path : string := "/var/log/zinc.log".

(** The random source: [rand k] is what the generator gives at its [k]-th
    use; [secrets.choice(seq)] is [seq[randbelow(len(seq))]], and any index
    below the length is [rand k] modulo the length for some [rand]. *)
Definition choice (rand : nat -> nat) (k : nat) (seq : string) : option ascii :=
  String.get (rand k mod String.length seq) seq.

(** [n] successive choices, from use [k] on, joined. *)
Fixpoint choices (rand : nat -> nat) (seq : string) (k n : nat)
    : option string :=
  match n with
  | 0 => Some EmptyString
  | S n' =>
      match choice rand k seq with
      | Some c =>
          match choices rand seq (S k) n' with
          | Some s => Some (String c s)
          | None => None
          end
      | None => None
      end
  end.

(** [_generate_password] *)
Definition _generate_password (rand : nat -> nat) (k : nat) : option string :=
  let chars := (ascii_letters ++ digits)%string in
  choices rand chars k 24.

Definition double_quote : string := String (ascii_of_nat 34) EmptyString.

(** [_pebble_layer], the dict given to [Layer]. *)
Definition _pebble_layer (initial_admin_password : string) : json :=
  JDict
    [("services",
      JDict
        [("zinc",
          JDict
            [("override", JStr "replace");
             ("summary", JStr "zinc");
             ("command",
              JStr ("/bin/sh -c " ++ double_quote ++ "/go/bin/zinc | tee "
                    ++ _log_path ++ double_quote));
             ("startup", JStr "enabled");
             ("environment",
              JDict
                [("ZINC_DATA_PATH", JStr "/go/bin/data");
                 ("ZINC_FIRST_ADMIN_USER", JStr "admin");
                 ("ZINC_FIRST_ADMIN_PASSWORD", JStr initial_admin_password);
                 ("ZINC_PROMETHEUS_ENABLE", JBool true);
                 ("ZINC_TELEMETRY", JBool false);
                 ("ZINC_PROFILER", JBool true)])])])].

(** What a handler does to the outside, in order. *)
Inductive effect : Type :=
| add_layer (label : string) (layer : json) (combine : bool)
| autostart
| set_status_active
| set_results (results : dict string).

(** The state that outlives a handler: the stored password, and how many
    times the random source has been used. *)
Record state : Type := {
  initial_admin_password : string;
  draws : nat
}.

(** [self._stored.set_default(initial_admin_password="")] *)
Definition initial_state : state :=
  {| initial_admin_password := ""; draws := 0 |}.

(** The first lines of both handlers: generate the password if there is
    none. *)
Definition ensure_password (rand : nat -> nat) (st : state) : option state :=
  if String.eqb (initial_admin_password st) ""
  then
    match _generate_password rand (draws st) with
    | Some password =>
        Some {| initial_admin_password := password; draws := draws st + 24 |}
    | None => None
    end
  else Some st.

(** The calls of a handler go to Pebble and to the framework, which are
    not part of this repository: each of them returns or raises, and the
    handlers catch nothing, so a call that raises ends the handler there.
    [returns n] tells whether the [n]-th call made to the outside returns,
    [made] counts the calls made before.  The result is the calls made,
    the one that raised included, and whether all of them returned. *)
Fixpoint perform (returns : nat -> bool) (made : nat) (calls : list effect)
    : list effect * bool :=
  match calls with
  | [] => ([], true)
  | call :: rest =>
      if returns made
      then
        let '(calls_made, all_returned) := perform returns (S made) rest in
        (call :: calls_made, all_returned)
      else ([call], false)
  end.

(** [_on_zinc_pebble_ready] *)
Definition _on_zinc_pebble_ready (rand : nat -> nat) (returns : nat -> bool)
    (made : nat) (st : state) : option (state * (list effect * bool)) :=
  match ensure_password rand st with
  | Some st' =>
      Some (st',
            perform returns made
              [add_layer "zinc" (_pebble_layer (initial_admin_password st')) true;
               autostart;
               set_status_active])
  | None => None
  end.

(** [_on_get_admin_password] *)
Definition _on_get_admin_password (rand : nat -> nat) (returns : nat -> bool)
    (made : nat) (st : state) : option (state * (list effect * bool)) :=
  match ensure_password rand st with
  | Some st' =>
      Some (st',
            perform returns made
              [set_results [("admin-password", initial_admin_password st')]])
  | None => None
  end.

Inductive charm_event : Type := zinc_pebble_ready | get_admin_password_action.

Definition handle (rand : nat -> nat) (returns : nat -> bool) (made : nat)
    (ev : charm_event) (st : state) : option (state * (list effect * bool)) :=
  match ev with
  | zinc_pebble_ready => _on_zinc_pebble_ready rand returns made st
  | get_admin_password_action => _on_get_admin_password rand returns made st
  end.

(** How a sequence of events ends: every handler returned, leaving the
    stored state and the calls made; or a handler raised, after the calls
    made up to the one that raised. *)
Inductive outcome : Type :=
| Completed (st : state) (calls_made : list effect)
| Failed (calls_made : list effect).

(** The events of the life of the charm, one handler after the other, the
    stored state passing from each to the next, up to the first handler
    that raises. *)
Fixpoint run (rand : nat -> nat) (returns : nat -> bool)
    (evs : list charm_event) (st : state) (made : nat) : option outcome :=
  match evs with
  | [] => Some (Completed st [])
  | ev :: rest =>
      match handle rand returns made ev st with
      | Some (st', (calls_made, true)) =>
          match run rand returns rest st' (made + length calls_made) with
          | Some (Completed st'' calls_made') =>
              Some (Completed st'' (calls_made ++ calls_made'))
          | Some (Failed calls_made') => Some (Failed (calls_made ++ calls_made'))
          | None => None
          end
      | Some (_, (calls_made, false)) => Some (Failed calls_made)
      | None => None
      end
  end.

(** The calls a handler makes when the stored password is [password]. *)
Definition calls_of (password : string) (ev : charm_event) : list effect :=
  match ev with
  | zinc_pebble_ready =>
      [add_layer "zinc" (_pebble_layer password) true;
       autostart;
       set_status_active]
  | get_admin_password_action =>
      [set_results [("admin-password", password)]]
  end.

(** The password an effect shows, if it shows one. *)
Definition shown_password (e : effect) : option json :=
  match e with
  | add_layer _ (JDict [("services", JDict [("zinc", JDict service)])]) _ =>
      match dict_get service "environment" with
      | Some (JDict environment) => dict_get environment "ZINC_FIRST_ADMIN_PASSWORD"
      | _ => None
      end
  | set_results results =>
      option_map JStr (dict_get results "admin-password")
  | _ => None
  end.

(** A character of [[A-Za-z0-9]]. *)
Definition is_alnum (c : ascii) : bool :=
  let n := nat_of_ascii c in
  (((48 <=? n) && (n <=? 57)) || ((65 <=? n) && (n <=? 90))
   || ((97 <=? n) && (n <=? 122)))%nat.

End ZincCharm.

(** The first and the last character of a string. *)
Definition first_char (s : string) : option ascii :=
  match s with
  | EmptyString => None
  | String c _ => Some c
  end.

Fixpoint last_char (s : string) : option ascii :=
  match s with
  | EmptyString => None
  | String c EmptyString => Some c
  | String _ s' => last_char s'
  end.

(** No whitespace at either end. *)
Definition trimmed (s : string) : Prop :=
  (forall c, first_char s = Some c -> is_space c = false) /\
  (forall c, last_char s = Some c -> is_space c = false).

(** A value with [items()]. *)
Definition is_dict (v : json) : bool :=
  match v with
  | JDict _ => true
  | _ => false
  end.

(** What a unit adds to the hosts, if it adds anything: its resolved name
    and address when both are non-empty. *)
Definition unit_host (u : Unit) : option (string * string) :=
  match unit_name_of u, unit_address_of u with
  | Some n, Some a =>
      if negb (String.eqb n "") && negb (String.eqb a "")
      then Some (n, a) else None
  | _, _ => None
  end.

(** The body of the loop of [_relation_hosts]. *)
Definition hosts_step (hosts : dict string) (u : Unit) : dict string :=
  match unit_host u with
  | Some (n, a) => dict_set hosts n a
  | None => hosts
  end.

(** *** The order of the units

    [relation.units] is a set: the order in which [_relation_hosts] meets
    the units is not part of what the publisher sent.  Two relations are
    two readings of one snapshot when they hold the same databags, the
    units in any order. *)
Definition same_snapshot (r r' : Relation) : Prop :=
  Permutation (units r) (units r') /\
  scrape_jobs r = scrape_jobs r' /\
  scrape_metadata r = scrape_metadata r'.

(** What each unit gives to the hosts, unit after unit. *)
Definition unit_hosts (us : list Unit) : dict string :=
  flat_map (fun u => match unit_host u with Some p => [p] | None => [] end) us.

(** The entries of one target group: those that do not depend on the
    members, then one entry per member. *)
Definition group_part : Type := (list json * (string * string -> json))%type.

Definition part_ok (p : group_part) : Prop :=
  forallb (fun e => negb (is_member_entry e)) (fst p) = true /\
  forall member, is_member_entry (snd p member) = true.

Definition entries_of_parts (parts : list group_part) (hosts : dict string)
    : list json :=
  flat_map (fun p => fst p ++ map (snd p) hosts) parts.

(** Two lists of static entries made of the same groups over two orders
    of the same members. *)
Definition same_entries_up_to_member_order (entries entries' : list json)
    : Prop :=
  exists parts hosts hosts',
    Permutation hosts hosts' /\
    Forall part_ok parts /\
    entries = entries_of_parts parts hosts /\
    entries' = entries_of_parts parts hosts'.

(** Two jobs that are equal, or differ by their static entries only, and
    there by the order of the members only. *)
Definition same_job_up_to_member_order (job job' : json) : Prop :=
  job = job' \/
  exists d entries entries',
    job = JDict d /\
    dict_get d "static_configs" = Some (JList entries) /\
    job' = JDict (dict_set d "static_configs" (JList entries')) /\
    same_entries_up_to_member_order entries entries'.

(** ** More scenarios *)

Module Fixtures.

Definition meta : Meta.t :=
  {| Meta.relations :=
       [("profiling-endpoint", {| Meta.interface_name := "parca_scrape" |});
        ("metrics-endpoint", {| Meta.interface_name := "prometheus_scrape" |})];
     Meta.provides :=
       [("profiling-endpoint", {| Meta.interface_name := "parca_scrape" |});
        ("metrics-endpoint", {| Meta.interface_name := "prometheus_scrape" |})];
     Meta.requires := [];
     Meta.containers := [("zinc-db", {| Meta.container_name := "zinc-db" |})];
     Meta.series := [] |}.

(** A unit that still carries the legacy address key. *)
Definition legacy_unit : Unit :=
  {| name := "app/3";
     unit_data := [("parca_scrape_host", "10.0.0.9")] |}.

Definition timed_job : dict json :=
  [("job_name", JStr "timed");
   ("scrape_interval", JStr "10s");
   ("metrics_path", JStr "/debug");
   ("relabel_configs", JList [JDict [("target_label", JStr "team")]]);
   ("static_configs", JList [JDict [("targets", JList [JStr "*:8080"])]])].

Definition timed_sanitized : dict json :=
  Eval vm_compute in
    match _sanitize_scrape_configuration (JDict timed_job) with
    | Ok out => out
    | Raise _ => []
    end.

Definition timed_out : dict json :=
  Eval vm_compute in
    match Scenario.expand timed_sanitized "p" Scenario.hosts Scenario.metadata with
    | Ok out => out
    | Raise _ => []
    end.

Definition timed_configs : list json :=
  Eval vm_compute in
    match label_jobs Scenario.label_matcher_dict Scenario.py_str
            [JDict timed_job; JDict Scenario.wildcard_job]
            "p" Scenario.hosts Scenario.metadata with
    | Ok out => out
    | Raise _ => []
    end.

(** One publisher read twice, its two units met in either order. *)
Definition two_units : Relation :=
  Scenario.publisher [Scenario.unit0; Scenario.unit1] [Scenario.mixed_job]
    Scenario.metadata.

Definition two_units_swapped : Relation :=
  Scenario.publisher [Scenario.unit1; Scenario.unit0] [Scenario.mixed_job]
    Scenario.metadata.

Definition two_units_out : list json :=
  Eval vm_compute in
    match Scenario.aggregate [two_units] with
    | Ok out => out
    | Raise _ => []
    end.

(** A random source. *)
Definition rand (k : nat) : nat := 7 * k + 3.

End Fixtures.

(** * Facts about dicts *)

Section DictFacts.
Context {V : Type}.
Implicit Types (d other : dict V) (k : string) (v : V).

Lemma dict_get_In d k v : dict_get d k = Some v -> In (k, v) d.
Proof.
  induction d as [|[k' v'] d IH]; simpl; [discriminate|].
  destruct (String.eqb_spec k' k) as [->|Hne]; intros H.
  - injection H as ->. now left.
  - right. auto.
Qed.

Lemma dict_get_keys d k : In k (dict_keys d) <-> dict_get d k <> None.
Proof.
  induction d as [|[k' v'] d IH]; simpl.
  - split; [tauto | congruence].
  - destruct (String.eqb_spec k' k) as [->|Hne].
    + split; [discriminate | now left].
    + rewrite <- IH. split; [intros [?|?]; [contradiction|assumption] | now right].
Qed.

Lemma dict_get_None d k : ~ In k (dict_keys d) -> dict_get d k = None.
Proof.
  intros H. destruct (dict_get d k) eqn:E; [|reflexivity].
  exfalso. apply H, dict_get_keys. congruence.
Qed.

Lemma dict_get_set_eq d k v : dict_get (dict_set d k v) k = Some v.
Proof.
  induction d as [|[k' v'] d IH]; simpl.
  - now rewrite String.eqb_refl.
  - destruct (String.eqb k' k) eqn:E; simpl; rewrite E; auto.
Qed.

Lemma dict_get_set_neq d k k' v :
  k <> k' -> dict_get (dict_set d k v) k' = dict_get d k'.
Proof.
  intros Hne. induction d as [|[k0 v0] d IH]; simpl.
  - destruct (String.eqb_spec k k'); [contradiction | reflexivity].
  - destruct (String.eqb_spec k0 k) as [->|Hk]; simpl.
    + destruct (String.eqb_spec k k'); [contradiction | reflexivity].
    + now rewrite IH.
Qed.

Lemma dict_keys_set d k v k' :
  In k' (dict_keys (dict_set d k v)) <-> k' = k \/ In k' (dict_keys d).
Proof.
  induction d as [|[k0 v0] d IH]; simpl.
  - intuition congruence.
  - destruct (String.eqb_spec k0 k) as [->|Hk]; simpl.
    + intuition congruence.
    + rewrite IH. intuition congruence.
Qed.

Lemma dict_set_In d k v k' v' :
  In (k', v') (dict_set d k v) -> (k', v') = (k, v) \/ In (k', v') d.
Proof.
  induction d as [|[k0 v0] d IH]; simpl.
  - intuition congruence.
  - destruct (String.eqb_spec k0 k) as [->|Hk]; simpl.
    + intuition congruence.
    + intuition congruence.
Qed.

Lemma dict_keys_update d other k :
  In k (dict_keys (dict_update d other)) <->
  In k (dict_keys d) \/ In k (dict_keys other).
Proof.
  unfold dict_update. revert d.
  induction other as [|[k0 v0] other IH]; intros d; simpl.
  - tauto.
  - rewrite IH, dict_keys_set. intuition congruence.
Qed.

Lemma dict_update_In d other k v :
  In (k, v) (dict_update d other) -> In (k, v) d \/ In (k, v) other.
Proof.
  unfold dict_update. revert d.
  induction other as [|[k0 v0] other IH]; intros d; simpl.
  - tauto.
  - intros H. apply IH in H as [H|H]; [|tauto].
    apply dict_set_In in H as [H|H]; [|tauto]. right. left. congruence.
Qed.

(** A key that [other] lacks keeps its value through [update]. *)
Lemma dict_get_update_notin d other k :
  ~ In k (dict_keys other) ->
  dict_get (dict_update d other) k = dict_get d k.
Proof.
  unfold dict_update. revert d.
  induction other as [|[k0 v0] other IH]; intros d Hk; simpl in *.
  - reflexivity.
  - rewrite IH by tauto. apply dict_get_set_neq. tauto.
Qed.

(** A key that [other] has takes one of the values [other] gives it. *)
Lemma dict_get_update_in d other k :
  In k (dict_keys other) ->
  exists v, dict_get (dict_update d other) k = Some v /\ In (k, v) other.
Proof.
  unfold dict_update. revert d.
  induction other as [|[k0 v0] other IH]; intros d Hk; simpl in *.
  - contradiction.
  - destruct (in_dec string_dec k (dict_keys other)) as [Hin|Hout].
    + destruct (IH (dict_set d k0 v0) Hin) as (v & Hv & Hi). eauto.
    + destruct Hk as [->|Hk]; [|contradiction].
      exists v0. split; [|now left].
      fold (dict_update (dict_set d k v0) other).
      rewrite dict_get_update_notin by assumption.
      apply dict_get_set_eq.
Qed.

Lemma nodup_keys_functional d k v v' :
  NoDup (dict_keys d) -> In (k, v) d -> In (k, v') d -> v = v'.
Proof.
  induction d as [|[k0 v0] d IH]; simpl; [contradiction|].
  intros Hnd [H1|H1] [H2|H2]; inversion Hnd; subst.
  - congruence.
  - injection H1 as -> ->. exfalso. apply H3.
    change k with (fst (k, v')). now apply in_map.
  - injection H2 as -> ->. exfalso. apply H3.
    change k with (fst (k, v)). now apply in_map.
  - auto.
Qed.

(** For a dict proper (no key twice), [update] makes every item of
    [other] visible, whatever [d] held under the key. *)
Lemma dict_get_update_other d other k v :
  NoDup (dict_keys other) ->
  dict_get other k = Some v ->
  dict_get (dict_update d other) k = Some v.
Proof.
  intros Hnd Hk.
  assert (Hin : In k (dict_keys other)) by (apply dict_get_keys; congruence).
  destruct (dict_get_update_in d other k Hin) as (v' & Hv' & Hi).
  rewrite Hv'. f_equal.
  eapply nodup_keys_functional; eauto using dict_get_In.
Qed.

End DictFacts.

(** * Facts about strings *)

Lemma split_length sep s : length (split sep s) = S (count_char sep s).
Proof.
  induction s as [|c s IH]; simpl; [reflexivity|].
  destruct (Ascii.eqb c sep); simpl.
  - now rewrite IH.
  - destruct (split sep s); simpl in *; [discriminate | assumption].
Qed.

(** Unpacking [target.split(":")] into two names succeeds exactly on one
    colon. *)
Lemma split_host_port_one_colon s :
  count_char ":" s = 1 ->
  split_host_port (JStr s) = Ok (host_of s, port_of s).
Proof.
  intros H. unfold split_host_port, host_of, port_of.
  pose proof (split_length ":" s) as L. rewrite H in L.
  destruct (split ":" s) as [|h [|p [|x l]]]; simpl in L; try discriminate.
  reflexivity.
Qed.

Lemma split_host_port_other s :
  count_char ":" s <> 1 -> split_host_port (JStr s) = Raise ValueError.
Proof.
  intros H. unfold split_host_port.
  pose proof (split_length ":" s) as L.
  destruct (split ":" s) as [|h [|p [|x l]]]; simpl in L; try reflexivity.
  exfalso. apply H. congruence.
Qed.

Lemma append_inj_l (p a b : string) : (p ++ a = p ++ b)%string -> a = b.
Proof. induction p; simpl; intros H; [assumption | injection H; auto]. Qed.

Lemma existsb_eqb_In (k : string) (l : list string) :
  existsb (String.eqb k) l = true <-> In k l.
Proof.
  rewrite existsb_exists. split.
  - intros (x & Hx & E). apply String.eqb_eq in E. now subst.
  - intros H. exists k. split; [assumption | apply String.eqb_refl].
Qed.

(** * The sanitizer *)

Lemma allowed_items_keys (items : dict json) (k : string) :
  In k (dict_keys
          (filter (fun kv => existsb (String.eqb (fst kv)) ALLOWED_KEYS) items)) <->
  In k (dict_keys items) /\ In k ALLOWED_KEYS.
Proof.
  unfold dict_keys. rewrite !in_map_iff. split.
  - intros ([k' v] & <- & H). apply filter_In in H as [H1 H2].
    split; [exists (k', v); auto | exact (proj1 (existsb_eqb_In k' _) H2)].
  - intros (([k' v] & <- & H1) & H2). exists (k', v). split; [reflexivity|].
    apply filter_In. split; [assumption|].
    exact (proj2 (existsb_eqb_In k' _) H2).
Qed.

Lemma sanitized_keys (items : dict json) (k : string) :
  In k (dict_keys
          (dict_update DEFAULT_JOB
             (dict_update []
                (filter (fun kv => existsb (String.eqb (fst kv)) ALLOWED_KEYS)
                        items)))) <->
  k = "static_configs" \/ (In k (dict_keys items) /\ In k ALLOWED_KEYS).
Proof.
  rewrite !dict_keys_update, allowed_items_keys. simpl. intuition.
Qed.

(** C5, as the code has it: on every raw job dict the sanitizer succeeds
    and its output has only allow-listed keys; a raw job without a
    ["static_configs"] key gets the default target group [["*:80"]], and a
    raw job with no allow-listed key at all gives the default template
    itself; a ["static_configs"] value that the raw job declares is kept as
    it is, the empty list included. *)
Theorem sanitize_allow_list :
  forall items : dict json,
    exists out,
      _sanitize_scrape_configuration (JDict items) = Ok out /\
      (forall k, In k (dict_keys out) -> In k ALLOWED_KEYS) /\
      (~ In "static_configs" (dict_keys items) ->
       dict_get out "static_configs" =
         Some (JList [JDict [("targets", JList [JStr "*:80"])]])) /\
      (In "static_configs" (dict_keys items) ->
       exists v, dict_get out "static_configs" = Some v /\
                 In ("static_configs", v) items) /\
      ((forall k, In k (dict_keys items) -> ~ In k ALLOWED_KEYS) ->
       out = DEFAULT_JOB).
Proof.
  intros items. eexists. split; [reflexivity|].
  set (allowed := filter _ items).
  assert (Hkeys : forall k, In k (dict_keys (dict_update [] allowed)) <->
                            In k (dict_keys items) /\ In k ALLOWED_KEYS).
  { intros k. rewrite dict_keys_update. unfold allowed.
    rewrite allowed_items_keys. simpl. tauto. }
  repeat split.
  - intros k Hk. apply dict_keys_update in Hk as [Hk|Hk].
    + simpl in Hk. destruct Hk as [<-|[]]. simpl. tauto.
    + now apply Hkeys in Hk.
  - intros Hout. rewrite dict_get_update_notin; [reflexivity|].
    intros Hk. apply Hkeys in Hk. tauto.
  - intros Hin.
    assert (Hk : In "static_configs" (dict_keys (dict_update [] allowed))).
    { apply Hkeys. split; [assumption | simpl; tauto]. }
    destruct (dict_get_update_in DEFAULT_JOB _ _ Hk) as (v & Hv & Hi).
    exists v. split; [assumption|].
    apply dict_update_In in Hi as [[]|Hi].
    unfold allowed in Hi. now apply filter_In in Hi.
  - intros Hnone.
    assert (E : allowed = []).
    { destruct allowed as [|[k v] rest] eqn:E; [reflexivity|]. exfalso.
      assert (Hk : In k (dict_keys allowed))
        by (rewrite E; simpl; now left).
      unfold allowed in Hk. apply allowed_items_keys in Hk as [H1 H2].
      exact (Hnone k H1 H2). }
    now rewrite E.
Qed.

(** C5 as stated fails: a raw job that declares an empty target-group list
    keeps it, and the output is not the default template. *)
Lemma sanitize_keeps_empty_static_configs :
  _sanitize_scrape_configuration (JDict [("static_configs", JList [])])
    = Ok [("static_configs", JList [])] /\
  dict_get [("static_configs", JList [])] "static_configs"
    <> dict_get DEFAULT_JOB "static_configs".
Proof. split; [reflexivity | discriminate]. Qed.

(** The sanitized job never has a ["relabel_configs"] key: the key is not
    on the allow-list, so the rules a publisher sends do not reach the
    engine through [jobs]. *)
Lemma sanitize_drops_relabel_configs (job : json) (out : dict json) :
  _sanitize_scrape_configuration job = Ok out ->
  dict_get out "relabel_configs" = None /\
  exists v, dict_get out "static_configs" = Some v.
Proof.
  destruct job as [| | | | |items]; try discriminate.
  intros H. injection H as <-. split.
  - apply dict_get_None. rewrite sanitized_keys.
    intros [H|[_ H]]; [discriminate|]. simpl in H.
    repeat destruct H as [H|H]; try discriminate. contradiction.
  - match goal with |- exists v, dict_get ?d ?k = Some v =>
      destruct (dict_get d k) as [v|] eqn:E end; [eauto|].
    exfalso. revert E. apply dict_get_keys, sanitized_keys. now left.
Qed.

(** * Partitioning the targets of a group *)

Lemma partition_targets_cons (t : json) (ts : list json)
    (ports : list string) (unitless : list json) :
  partition_targets (t :: ts) ports unitless =
    '(host, port) <- split_host_port t ;;
    if String.eqb (strip host) "*"
    then partition_targets ts (ports ++ [strip port]) unitless
    else partition_targets ts ports (unitless ++ [t]).
Proof. reflexivity. Qed.

Lemma partition_targets_valid (targets : list json) :
  Forall valid_target targets ->
  forall ports unitless,
    partition_targets targets ports unitless =
      Ok (ports ++ wildcard_ports targets, unitless ++ qualified_targets targets).
Proof.
  induction 1 as [|t ts (s & -> & Hs) _ IH]; intros ports unitless.
  - simpl. now rewrite !app_nil_r.
  - rewrite partition_targets_cons, (split_host_port_one_colon s Hs).
    unfold bind, wildcard_ports, qualified_targets. simpl flat_map. simpl filter.
    destruct (String.eqb (strip (host_of s)) "*") eqn:E; simpl negb; cbv iota.
    + rewrite IH, <- app_assoc. reflexivity.
    + rewrite IH, <- app_assoc. reflexivity.
Qed.

(** One target that cannot be split makes the whole partition raise. *)
Lemma partition_targets_raises (targets : list json) (t : json) (e0 : exn) :
  In t targets ->
  split_host_port t = Raise e0 ->
  forall ports unitless,
    exists e, partition_targets targets ports unitless = Raise e.
Proof.
  intros Hin Ht. induction targets as [|t' ts IH]; [contradiction|].
  intros ports unitless. rewrite partition_targets_cons.
  destruct (split_host_port t') as [[h p]|e] eqn:E; unfold bind; [|eauto].
  destruct Hin as [->|Hin]; [congruence|].
  destruct (String.eqb (strip h) "*"); auto.
Qed.

(** * The relabeling engine *)

Lemma add_juju_unit_idem (source_labels : list string) :
  add_juju_unit (add_juju_unit source_labels) = add_juju_unit source_labels.
Proof.
  unfold add_juju_unit.
  destruct (existsb (String.eqb "juju_unit") source_labels) eqn:E.
  - now rewrite E.
  - rewrite existsb_app, E. reflexivity.
Qed.

Lemma append_empty_r (s : string) : (s ++ "")%string = s.
Proof. induction s; simpl; congruence. Qed.

Lemma resolved_name_suffix (py_str : json -> string) (job : dict json)
    (prefix : string) :
  resolved_job_name py_str job prefix = (prefix ++ name_suffix py_str job)%string.
Proof.
  unfold resolved_job_name, name_suffix.
  destruct (dict_get job "job_name") as [n|]; [destruct (truthy n)|];
    now rewrite ?append_empty_r.
Qed.

Lemma append_relabel_existing (job : dict json) (rule : json) (rules : list json) :
  existing_rules job = JList rules ->
  append_relabel job rule = Ok (rules ++ [rule]).
Proof.
  unfold existing_rules, dict_get_default, append_relabel.
  destruct (dict_get job "relabel_configs") as [v|].
  - intros ->. reflexivity.
  - intros H. injection H as <-. reflexivity.
Qed.

Lemma append_relabel_inv (job : dict json) (rule : json) (out : list json) :
  append_relabel job rule = Ok out ->
  exists rules, existing_rules job = JList rules /\ out = rules ++ [rule].
Proof.
  unfold existing_rules, dict_get_default, append_relabel.
  destruct (dict_get job "relabel_configs") as [v|].
  - destruct v; try discriminate. intros H. injection H as <-. eauto.
  - intros H. injection H as <-. exists []. auto.
Qed.

Lemma valid_group_shape (g : json) :
  valid_group g ->
  exists sc,
    g = JDict sc /\
    dict_get_default sc "labels" (JDict []) = JDict (group_labels g) /\
    dict_get_default sc "targets" (JList []) = JList (group_targets g) /\
    Forall valid_target (group_targets g).
Proof.
  intros (sc & -> & Hl & Ht). exists sc. unfold dict_get_default. simpl.
  split; [reflexivity|].
  split; [|split].
  - destruct Hl as [->|(ul & ->)]; reflexivity.
  - destruct Ht as [->|(ts & -> & _)]; reflexivity.
  - destruct Ht as [->|(ts & -> & H)]; [constructor | exact H].
Qed.

Section EngineFacts.
Variable identifier : json -> result string.
Variable label_matcher_dict : json -> result (dict json).
Variable py_str : json -> string.

Local Abbreviation unit_config := (_labeled_unit_config label_matcher_dict).
Local Abbreviation unitless_config := (_labeled_unitless_config label_matcher_dict).
Local Abbreviation members_loop := (hosts_loop label_matcher_dict).
Local Abbreviation group_step := (static_config_step label_matcher_dict).
Local Abbreviation groups_loop := (static_configs_loop label_matcher_dict).
Local Abbreviation expand := (_labeled_static_job_config label_matcher_dict py_str).
Local Abbreviation label_all := (label_jobs label_matcher_dict py_str).
Local Abbreviation relation_config :=
  (_static_scrape_config identifier label_matcher_dict py_str).
Local Abbreviation aggregate_from := (jobs_loop identifier label_matcher_dict py_str).
Local Abbreviation aggregate := (jobs identifier label_matcher_dict py_str).

(** ** Valid input: the loops compute the specified entries *)

Lemma unit_config_valid md topo ul ports n a :
  label_matcher_dict md = Ok topo ->
  unit_config n a ports (JDict ul) md = Ok (member_entry topo ul ports (n, a)).
Proof.
  intros H. unfold _labeled_unit_config, _set_juju_labels. rewrite H.
  reflexivity.
Qed.

Lemma unitless_config_valid md topo ul targets :
  label_matcher_dict md = Ok topo ->
  unitless_config targets (JDict ul) md = Ok (qualified_entry topo ul targets).
Proof.
  intros H. unfold _labeled_unitless_config, _set_juju_labels. rewrite H.
  reflexivity.
Qed.

Lemma members_loop_cons n a hosts ports labels md st :
  members_loop ((n, a) :: hosts) ports labels md st =
    static_config <- unit_config n a ports labels md ;;
    members_loop hosts ports labels md
      (fst st ++ [static_config], add_juju_unit (snd st)).
Proof. reflexivity. Qed.

Lemma members_loop_valid md topo ul ports hosts :
  label_matcher_dict md = Ok topo ->
  forall st,
    members_loop hosts ports (JDict ul) md st =
      Ok (fst st ++ map (member_entry topo ul ports) hosts,
          if nonempty hosts then add_juju_unit (snd st) else snd st).
Proof.
  intros H. induction hosts as [|[n a] hosts IH]; intros [es sl].
  - simpl. now rewrite app_nil_r.
  - rewrite members_loop_cons, (unit_config_valid _ _ _ _ _ _ H).
    unfold bind. rewrite IH. cbn [fst snd map nonempty].
    rewrite <- app_assoc. cbn [app].
    destruct hosts; cbn [nonempty]; [|rewrite add_juju_unit_idem]; reflexivity.
Qed.

Lemma group_step_valid scs hosts md topo g st :
  truthy scs = true ->
  label_matcher_dict md = Ok topo ->
  valid_group g ->
  group_step scs hosts md g st =
    Ok (fst st ++ spec_group_entries topo hosts g,
        if nonempty hosts then add_juju_unit (snd st) else snd st).
Proof.
  intros Hscs Htopo Hg.
  destruct (valid_group_shape g Hg) as (sc & E & Hl & Ht & Hv).
  unfold spec_group_entries. rewrite E at 1.
  unfold static_config_step. rewrite Hscs, Hl, Ht.
  cbn [py_iter bind].
  rewrite (partition_targets_valid _ Hv). cbn [app].
  destruct (qualified_targets (group_targets g)) as [|q qs] eqn:Q;
    cbn [nonempty bind].
  - rewrite (members_loop_valid _ _ _ _ _ Htopo). reflexivity.
  - rewrite (unitless_config_valid _ _ _ _ Htopo). cbn [bind].
    rewrite (members_loop_valid _ _ _ _ _ Htopo). cbn [fst snd].
    rewrite <- app_assoc. reflexivity.
Qed.

Lemma groups_loop_cons scs hosts md g items st :
  groups_loop scs hosts md (g :: items) st =
    st' <- group_step scs hosts md g st ;;
    groups_loop scs hosts md items st'.
Proof. reflexivity. Qed.

Lemma groups_loop_valid scs hosts md topo items :
  truthy scs = true ->
  label_matcher_dict md = Ok topo ->
  Forall valid_group items ->
  forall st,
    groups_loop scs hosts md items st =
      Ok (fst st ++ flat_map (spec_group_entries topo hosts) items,
          if nonempty items && nonempty hosts
          then add_juju_unit (snd st) else snd st).
Proof.
  intros Hscs Htopo. induction 1 as [|g items Hg _ IH]; intros [es sl].
  - simpl. now rewrite app_nil_r.
  - rewrite groups_loop_cons, (group_step_valid _ _ _ _ _ _ Hscs Htopo Hg).
    cbn [bind]. rewrite IH. cbn [fst snd flat_map nonempty andb].
    rewrite <- app_assoc.
    destruct (nonempty hosts), (nonempty items); cbn [andb];
      rewrite ?add_juju_unit_idem; reflexivity.
Qed.

Lemma expand_valid job prefix hosts md groups rules topo :
  dict_get job "static_configs" = Some (JList groups) ->
  Forall valid_group groups ->
  existing_rules job = JList rules ->
  label_matcher_dict md = Ok topo ->
  expand job prefix hosts md =
    Ok (spec_job py_str topo hosts job prefix groups rules).
Proof.
  intros Hsc Hg Hr Htopo.
  unfold _labeled_static_job_config, dict_get_default. rewrite Hsc.
  cbn [py_iter bind]. rewrite resolved_name_suffix.
  assert (L : groups_loop (JList groups) hosts md groups ([], BASE_SOURCE_LABELS) =
              Ok (flat_map (spec_group_entries topo hosts) groups,
                  BASE_SOURCE_LABELS ++
                  if nonempty groups && nonempty hosts
                  then ["juju_unit"] else [])).
  { destruct groups as [|g gs] eqn:G; [reflexivity|]. rewrite <- G in *.
    rewrite (groups_loop_valid _ _ _ topo); auto; [|now rewrite G].
    cbn [fst snd app]. destruct (nonempty groups && nonempty hosts);
      [reflexivity | now rewrite app_nil_r]. }
  rewrite L. cbn [bind].
  rewrite (append_relabel_existing _ _ _ Hr). reflexivity.
Qed.

(** ** Any input: what a successful run has done *)

Lemma unit_config_shape n a ports labels md e :
  unit_config n a ports labels md = Ok e -> is_member_entry e = true.
Proof.
  unfold _labeled_unit_config.
  destruct (_set_juju_labels label_matcher_dict labels md); [|discriminate].
  intros H. injection H as <-. reflexivity.
Qed.

Lemma unitless_config_shape targets labels md e :
  unitless_config targets labels md = Ok e -> is_member_entry e = false.
Proof.
  unfold _labeled_unitless_config.
  destruct (_set_juju_labels label_matcher_dict labels md); [|discriminate].
  intros H. injection H as <-. reflexivity.
Qed.

Lemma members_loop_inv hosts ports labels md :
  forall st st',
    members_loop hosts ports labels md st = Ok st' ->
    exists new,
      fst st' = fst st ++ new /\
      length new = length hosts /\
      forallb is_member_entry new = true /\
      snd st' = if nonempty hosts then add_juju_unit (snd st) else snd st.
Proof.
  induction hosts as [|[n a] hosts IH]; intros st st' H.
  - injection H as <-. exists []. now rewrite app_nil_r.
  - rewrite members_loop_cons in H.
    destruct (unit_config n a ports labels md) as [e|] eqn:E; [|discriminate].
    cbn [bind] in H. apply IH in H as (new & H1 & H2 & H3 & H4).
    cbn [fst snd] in *. exists (e :: new). repeat split.
    + now rewrite H1, <- app_assoc.
    + simpl. now rewrite H2.
    + simpl. now rewrite (unit_config_shape _ _ _ _ _ _ E), H3.
    + rewrite H4. destruct hosts; cbn [nonempty];
        [|rewrite add_juju_unit_idem]; reflexivity.
Qed.

Lemma forallb_existsb_nonempty {A : Type} (p : A -> bool) (l : list A) :
  forallb p l = true -> existsb p l = nonempty l.
Proof.
  destruct l as [|x l]; [reflexivity|]. simpl.
  intros H. apply andb_prop in H as [-> _]. reflexivity.
Qed.

Lemma nonempty_length {A B : Type} (l : list A) (l' : list B) :
  length l = length l' -> nonempty l = nonempty l'.
Proof. destruct l, l'; simpl; congruence. Qed.

Lemma group_step_inv scs hosts md g st st' :
  group_step scs hosts md g st = Ok st' ->
  exists new,
    fst st' = fst st ++ new /\
    existsb is_member_entry new = nonempty hosts /\
    snd st' = if nonempty hosts then add_juju_unit (snd st) else snd st.
Proof.
  unfold static_config_step. destruct g as [| | | | |sc]; try discriminate.
  set (labels := if truthy scs then _ else _).
  destruct (py_iter _) as [ts|]; [|discriminate]. cbn [bind].
  destruct (partition_targets ts [] []) as [[ports unitless]|]; [|discriminate].
  cbn [bind].
  destruct (nonempty unitless).
  - destruct (unitless_config unitless labels md) as [u|] eqn:U; [|discriminate].
    cbn [bind]. intros H.
    apply members_loop_inv in H as (new & H1 & H2 & H3 & H4).
    cbn [fst snd] in *. exists (u :: new). repeat split.
    + now rewrite H1, <- app_assoc.
    + simpl. rewrite (unitless_config_shape _ _ _ _ U). simpl.
      rewrite (forallb_existsb_nonempty _ _ H3). now apply nonempty_length.
    + assumption.
  - cbn [bind]. intros H.
    apply members_loop_inv in H as (new & H1 & H2 & H3 & H4).
    exists new. repeat split; try assumption.
    rewrite (forallb_existsb_nonempty _ _ H3). now apply nonempty_length.
Qed.

Lemma groups_loop_inv scs hosts md items :
  forall st st',
    groups_loop scs hosts md items st = Ok st' ->
    exists new,
      fst st' = fst st ++ new /\
      existsb is_member_entry new = nonempty items && nonempty hosts /\
      snd st' = if nonempty items && nonempty hosts
                then add_juju_unit (snd st) else snd st.
Proof.
  induction items as [|g items IH]; intros st st' H.
  - injection H as <-. exists []. now rewrite app_nil_r.
  - rewrite groups_loop_cons in H.
    destruct (group_step scs hosts md g st) as [st1|] eqn:S; [|discriminate].
    cbn [bind] in H.
    apply group_step_inv in S as (new1 & A1 & A2 & A3).
    apply IH in H as (new2 & B1 & B2 & B3).
    exists (new1 ++ new2). repeat split.
    + now rewrite B1, A1, <- app_assoc.
    + rewrite existsb_app, A2, B2. cbn [nonempty andb].
      destruct (nonempty hosts), (nonempty items); reflexivity.
    + rewrite B3, A3. cbn [nonempty andb].
      destruct (nonempty hosts), (nonempty items); cbn [andb];
        rewrite ?add_juju_unit_idem; reflexivity.
Qed.

(** What a successful expansion returns, for any job. *)
Lemma expand_inv job prefix hosts md out :
  expand job prefix hosts md = Ok out ->
  exists entries rules,
    existing_rules job = JList rules /\
    out =
      dict_set
        (dict_set
           (dict_set job "job_name" (JStr (resolved_job_name py_str job prefix)))
           "static_configs" (JList entries))
        "relabel_configs"
        (JList (rules ++
                [instance_relabel_config
                   (BASE_SOURCE_LABELS ++
                    if existsb is_member_entry entries
                    then ["juju_unit"] else [])])).
Proof.
  unfold _labeled_static_job_config.
  destruct (py_iter _) as [items|]; [|discriminate]. cbn [bind].
  destruct (groups_loop _ hosts md items _) as [[entries sl]|] eqn:L;
    [|discriminate].
  cbn [bind].
  destruct (append_relabel job _) as [rc|] eqn:R; [|discriminate].
  cbn [bind]. intros H. injection H as <-.
  apply groups_loop_inv in L as (new & L1 & L2 & L3). cbn [fst snd app] in *.
  subst new.
  apply append_relabel_inv in R as (rules & R1 & ->).
  exists entries, rules. split; [assumption|].
  rewrite L3, L2.
  destruct (nonempty items && nonempty hosts); [reflexivity|].
  now rewrite app_nil_r.
Qed.

(** ** Targets that cannot be split *)

Lemma group_step_raises scs hosts md sc targets t e0 st :
  dict_get sc "targets" = Some (JList targets) ->
  In t targets ->
  split_host_port t = Raise e0 ->
  exists e, group_step scs hosts md (JDict sc) st = Raise e.
Proof.
  intros Ht Hin Hs. unfold static_config_step, dict_get_default.
  rewrite Ht. cbn [py_iter bind].
  destruct (partition_targets_raises _ _ _ Hin Hs [] []) as (e & ->).
  cbn [bind]. eauto.
Qed.

Lemma groups_loop_raises scs hosts md items g :
  In g items ->
  (forall st, exists e, group_step scs hosts md g st = Raise e) ->
  forall st, exists e, groups_loop scs hosts md items st = Raise e.
Proof.
  intros Hin Hg. induction items as [|g' items IH]; [contradiction|].
  intros st. rewrite groups_loop_cons.
  destruct (group_step scs hosts md g' st) as [st1|e] eqn:S; cbn [bind];
    [|eauto].
  destruct Hin as [->|Hin].
  - destruct (Hg st) as (e & He). congruence.
  - auto.
Qed.

Lemma expand_raises job prefix hosts md groups sc targets t e0 :
  dict_get job "static_configs" = Some (JList groups) ->
  In (JDict sc) groups ->
  dict_get sc "targets" = Some (JList targets) ->
  In t targets ->
  split_host_port t = Raise e0 ->
  exists e, expand job prefix hosts md = Raise e.
Proof.
  intros Hsc Hg Ht Hin Hs.
  unfold _labeled_static_job_config, dict_get_default. rewrite Hsc.
  cbn [py_iter bind].
  destruct (groups_loop_raises (JList groups) hosts md groups (JDict sc) Hg
              (fun st => group_step_raises _ _ _ _ _ _ _ st Ht Hin Hs)
              ([], BASE_SOURCE_LABELS)) as (e & ->).
  cbn [bind]. eauto.
Qed.
(** ** The aggregation driver *)

Lemma label_all_cons raw rest prefix hosts md :
  label_all (raw :: rest) prefix hosts md =
    sanitized <- _sanitize_scrape_configuration raw ;;
    config <- expand sanitized prefix hosts md ;;
    configs <- label_all rest prefix hosts md ;;
    Ok (JDict config :: configs).
Proof. reflexivity. Qed.

Lemma label_all_app pre post prefix hosts md :
  label_all (pre ++ post) prefix hosts md =
    a <- label_all pre prefix hosts md ;;
    b <- label_all post prefix hosts md ;;
    Ok (a ++ b).
Proof.
  induction pre as [|raw pre IH].
  - cbn [app label_jobs bind].
    destruct (label_all post prefix hosts md); reflexivity.
  - rewrite <- app_comm_cons, !label_all_cons.
    destruct (_sanitize_scrape_configuration raw) as [san|]; cbn [bind];
      [|reflexivity].
    destruct (expand san prefix hosts md); cbn [bind]; [|reflexivity].
    rewrite IH.
    destruct (label_all pre prefix hosts md); cbn [bind]; [|reflexivity].
    destruct (label_all post prefix hosts md); reflexivity.
Qed.

Lemma label_all_raises raws raw prefix hosts md :
  In raw raws ->
  (forall san, _sanitize_scrape_configuration raw = Ok san ->
               exists e, expand san prefix hosts md = Raise e) ->
  exists e, label_all raws prefix hosts md = Raise e.
Proof.
  intros Hin Hraw. induction raws as [|raw' raws IH]; [contradiction|].
  rewrite label_all_cons.
  destruct (_sanitize_scrape_configuration raw') as [san|] eqn:S;
    cbn [bind]; [|eauto].
  destruct (expand san prefix hosts md) as [config|] eqn:X; cbn [bind];
    [|eauto].
  destruct Hin as [->|Hin].
  - destruct (Hraw san S) as (e & He). congruence.
  - destruct (IH Hin) as (e & ->). cbn [bind]. eauto.
Qed.

(** The labeled branch of [_static_scrape_config]. *)
Lemma relation_config_labeled relation raws prefix :
  units relation <> [] ->
  scrape_jobs relation = JList raws ->
  raws <> [] ->
  truthy (scrape_metadata relation) = true ->
  identifier (scrape_metadata relation) = Ok prefix ->
  relation_config relation =
    configs <- label_all raws prefix (_relation_hosts relation)
                 (scrape_metadata relation) ;;
    Ok (JList configs).
Proof.
  intros Hu Hj Hr Hm Hi. unfold _static_scrape_config.
  rewrite Hj, Hm, Hi.
  destruct (units relation); [contradiction|].
  destruct raws; [contradiction|]. reflexivity.
Qed.

Lemma aggregate_from_cons relation rest acc :
  aggregate_from (relation :: rest) acc =
    static_scrape_jobs <- relation_config relation ;;
    if truthy static_scrape_jobs
    then items <- py_iter static_scrape_jobs ;;
         aggregate_from rest (acc ++ items)
    else aggregate_from rest acc.
Proof. reflexivity. Qed.

(** The jobs of the relations seen so far stay in front, untouched. *)
Lemma aggregate_from_acc relations :
  forall acc,
    aggregate_from relations acc =
      out <- aggregate relations ;; Ok (acc ++ out).
Proof.
  unfold jobs. induction relations as [|r rels IH]; intros acc.
  - cbn [jobs_loop bind]. now rewrite app_nil_r.
  - rewrite !aggregate_from_cons.
    destruct (relation_config r) as [v|]; cbn [bind]; [|reflexivity].
    destruct (truthy v); [|apply IH].
    destruct (py_iter v) as [items|]; cbn [bind]; [|reflexivity].
    rewrite (IH (acc ++ items)), (IH ([] ++ items)).
    destruct (aggregate_from rels []); cbn [bind app];
      [now rewrite app_assoc | reflexivity].
Qed.

Lemma aggregate_from_app rels1 rels2 :
  forall acc,
    aggregate_from (rels1 ++ rels2) acc =
      mid <- aggregate_from rels1 acc ;; aggregate_from rels2 mid.
Proof.
  induction rels1 as [|r rels1 IH]; intros acc; [reflexivity|].
  rewrite <- app_comm_cons, !aggregate_from_cons.
  destruct (relation_config r) as [v|]; cbn [bind]; [|reflexivity].
  destruct (truthy v); [|apply IH].
  destruct (py_iter v) as [items|]; cbn [bind]; [apply IH | reflexivity].
Qed.

(** Publisher order is output order. *)
Lemma aggregate_app rels1 rels2 :
  aggregate (rels1 ++ rels2) =
    a <- aggregate rels1 ;; b <- aggregate rels2 ;; Ok (a ++ b).
Proof.
  unfold jobs at 1. rewrite aggregate_from_app.
  fold (aggregate rels1).
  destruct (aggregate rels1); cbn [bind]; [|reflexivity].
  apply aggregate_from_acc.
Qed.

Lemma aggregate_insert before relation after b configs a :
  aggregate before = Ok b ->
  relation_config relation = Ok (JList configs) ->
  aggregate after = Ok a ->
  aggregate (before ++ relation :: after) = Ok (b ++ configs ++ a).
Proof.
  intros Hb Hc Ha. rewrite aggregate_app, Hb. cbn [bind].
  unfold jobs at 1. rewrite aggregate_from_cons, Hc. cbn [bind].
  destruct configs as [|c cs]; cbn [truthy py_iter bind].
  - fold (aggregate after). now rewrite Ha.
  - rewrite aggregate_from_acc, Ha. reflexivity.
Qed.

Lemma aggregate_raises relations relation e0 :
  In relation relations ->
  relation_config relation = Raise e0 ->
  exists e, aggregate relations = Raise e.
Proof.
  intros Hin Hr. unfold jobs. generalize (@nil json).
  induction relations as [|r rels IH]; [contradiction|]. intros acc.
  rewrite aggregate_from_cons.
  destruct (relation_config r) as [v|e] eqn:E; cbn [bind]; [|eauto].
  destruct Hin as [->|Hin]; [congruence|].
  destruct (truthy v); [|auto].
  destruct (py_iter v); cbn [bind]; eauto.
Qed.
(** ** Labels of the entries *)

Lemma entry_label_qualified topo ul targets k :
  entry_label (qualified_entry topo ul targets) k =
    dict_get (dict_update ul topo) k.
Proof. reflexivity. Qed.

Lemma entry_label_member topo ul ports member k :
  entry_label (member_entry topo ul ports member) k =
    dict_get (dict_set (dict_update ul topo) "juju_unit" (JStr (fst member))) k.
Proof. reflexivity. Qed.

Lemma spec_job_static_configs topo hosts job prefix groups rules :
  dict_get (spec_job py_str topo hosts job prefix groups rules) "static_configs" =
    Some (JList (flat_map (spec_group_entries topo hosts) groups)).
Proof.
  unfold spec_job.
  rewrite dict_get_set_neq by discriminate. apply dict_get_set_eq.
Qed.

Lemma member_entries_of_group topo hosts g :
  filter is_member_entry (spec_group_entries topo hosts g) =
    map (member_entry topo (group_labels g) (wildcard_ports (group_targets g)))
        hosts.
Proof.
  unfold spec_group_entries. rewrite filter_app.
  assert (E : forall f : string * string -> json,
             (forall m, is_member_entry (f m) = true) ->
             filter is_member_entry (map f hosts) = map f hosts).
  { intros f Hf. induction hosts as [|m ms IH]; [reflexivity|].
    simpl. now rewrite Hf, IH. }
  rewrite E by reflexivity.
  destruct (nonempty (qualified_targets (group_targets g))); reflexivity.
Qed.

Lemma member_entries_count topo hosts groups :
  length (filter is_member_entry
            (flat_map (spec_group_entries topo hosts) groups)) =
    length groups * length hosts.
Proof.
  induction groups as [|g groups IH]; [reflexivity|].
  cbn [flat_map]. rewrite filter_app, length_app, IH.
  rewrite member_entries_of_group, length_map. reflexivity.
Qed.

(** C3, as the code has it: for a template whose groups are valid, with
    any membership snapshot, the expansion succeeds and its static entries
    are, group after group, the entry of the fully-qualified targets (when
    the group has any) followed by one entry per member, so that there
    are groups times members member-derived entries.  A member entry has
    the member name under [juju_unit], every topology label, and as
    targets the member address joined to each wildcard port of the group,
    or the bare address when the group has no wildcard port.  The entry of
    the fully-qualified targets has every topology label; no member name
    is added to it, so its [juju_unit] label is the one the labels of the
    group give, if any. *)
Theorem expand_entries_per_member_and_group
    job prefix hosts md groups rules topo :
  dict_get job "static_configs" = Some (JList groups) ->
  Forall valid_group groups ->
  existing_rules job = JList rules ->
  label_matcher_dict md = Ok topo ->
  NoDup (dict_keys topo) ->
  dict_get topo "juju_unit" = None ->
  exists out entries,
    expand job prefix hosts md = Ok out /\
    dict_get out "static_configs" = Some (JList entries) /\
    entries = flat_map (spec_group_entries topo hosts) groups /\
    length (filter is_member_entry entries) = length groups * length hosts /\
    (forall ul ports member k v,
       let e := member_entry topo ul ports member in
       entry_label e "juju_unit" = Some (JStr (fst member)) /\
       (dict_get topo k = Some v -> entry_label e k = Some v)) /\
    (forall ul targets k v,
       let e := qualified_entry topo ul targets in
       entry_label e "juju_unit" = dict_get ul "juju_unit" /\
       (dict_get topo k = Some v -> entry_label e k = Some v)).
Proof.
  intros Hsc Hg Hr Htopo Hnd Hunit.
  assert (Hout : ~ In "juju_unit" (dict_keys topo))
    by (rewrite dict_get_keys; congruence).
  exists (spec_job py_str topo hosts job prefix groups rules).
  exists (flat_map (spec_group_entries topo hosts) groups).
  split; [now apply expand_valid|].
  split; [apply spec_job_static_configs|].
  split; [reflexivity|].
  split; [apply member_entries_count|].
  split.
  - intros ul ports member k v e. subst e. rewrite !entry_label_member.
    split; [apply dict_get_set_eq|].
    intros Hk. rewrite dict_get_set_neq by congruence.
    now apply dict_get_update_other.
  - intros ul targets k v e. subst e. rewrite !entry_label_qualified.
    split; [now apply dict_get_update_notin|].
    intros Hk. now apply dict_get_update_other.
Qed.


(** C4: a job that the engine returns has, as relabeling rules, the rules
    of the template followed by the one uniqueness rule, which is
    therefore last; the source labels of that rule are the three topology
    labels, followed by [juju_unit] exactly when the static entries of
    the job include an entry built for a member. *)
Theorem uniqueness_rule_appended_last job prefix hosts md out :
  expand job prefix hosts md = Ok out ->
  exists entries rules,
    existing_rules job = JList rules /\
    dict_get out "static_configs" = Some (JList entries) /\
    dict_get out "relabel_configs" =
      Some (JList
              (rules ++
               [JDict
                  [("source_labels",
                    JList (map JStr
                             (["juju_model"; "juju_model_uuid";
                               "juju_application"]
                              ++ if existsb is_member_entry entries
                                 then ["juju_unit"] else [])));
                   ("separator", JStr "_");
                   ("target_label", JStr "instance");
                   ("regex", JStr "(.*)")]])).
Proof.
  intros H. apply expand_inv in H as (entries & rules & Hr & ->).
  exists entries, rules. split; [assumption|]. split.
  - rewrite dict_get_set_neq by discriminate. apply dict_get_set_eq.
  - apply dict_get_set_eq.
Qed.

(** C7, as the code has it: the name of a returned job is the prefix
    alone when the template has no name or a falsy one, and the prefix, an
    underscore and the name otherwise; under one prefix two templates get
    the same job name exactly when their names add the same suffix, so
    templates without a name, or with the same name, share their job
    name. *)
Theorem resolved_job_names job prefix hosts md out :
  expand job prefix hosts md = Ok out ->
  dict_get out "job_name" = Some (JStr (prefix ++ name_suffix py_str job)) /\
  (dict_get job "job_name" = None -> name_suffix py_str job = "") /\
  (forall n, dict_get job "job_name" = Some n -> truthy n = false ->
             name_suffix py_str job = "") /\
  (forall n, dict_get job "job_name" = Some (JStr n) -> n <> "" ->
             name_suffix py_str job = ("_" ++ n)%string) /\
  (forall job',
     (prefix ++ name_suffix py_str job')%string =
     (prefix ++ name_suffix py_str job)%string <->
     name_suffix py_str job' = name_suffix py_str job).
Proof.
  intros H. apply expand_inv in H as (entries & rules & _ & ->).
  split; [|split; [|split; [|split]]].
  - rewrite !dict_get_set_neq by discriminate.
    now rewrite dict_get_set_eq, resolved_name_suffix.
  - unfold name_suffix. now intros ->.
  - unfold name_suffix. now intros n -> ->.
  - unfold name_suffix. intros n -> Hn. cbn [truthy format_value].
    destruct (String.eqb_spec n ""); [contradiction | reflexivity].
  - intros job'. split; [apply append_inj_l | now intros ->].
Qed.

(** C10: a target string with a colon count other than one cannot be
    unpacked into host and port: the split raises [ValueError], for two
    colons or more as for none, the partition of its group raises, and so
    does the expansion of the job; a target with exactly one colon is
    split into its two sides.  So an expansion that returns has exactly
    one colon in every target string. *)
Theorem target_needs_exactly_one_colon
    job prefix hosts md groups sc targets s :
  dict_get job "static_configs" = Some (JList groups) ->
  In (JDict sc) groups ->
  dict_get sc "targets" = Some (JList targets) ->
  In (JStr s) targets ->
  (count_char ":" s = 1 ->
   split_host_port (JStr s) = Ok (host_of s, port_of s)) /\
  (count_char ":" s <> 1 ->
   split_host_port (JStr s) = Raise ValueError /\
   (forall ports unitless,
      exists e, partition_targets targets ports unitless = Raise e) /\
   exists e, expand job prefix hosts md = Raise e) /\
  (forall out, expand job prefix hosts md = Ok out -> count_char ":" s = 1).
Proof.
  intros Hsc Hg Ht Hin.
  assert (Hbad : count_char ":" s <> 1 ->
                 exists e, expand job prefix hosts md = Raise e).
  { intros Hc. eapply expand_raises; eauto using split_host_port_other. }
  split; [apply split_host_port_one_colon|]. split.
  - intros Hc. split; [now apply split_host_port_other|]. split; [|auto].
    intros ports unitless.
    eapply partition_targets_raises; eauto using split_host_port_other.
  - intros out Hout.
    destruct (Nat.eq_dec (count_char ":" s) 1) as [|Hc]; [assumption|].
    destruct (Hbad Hc) as (e & He). congruence.
Qed.
(** ** Claims about the aggregation *)

(** C1, as the code has it: nothing catches the error of a target string
    without a colon.  When a publisher with units and metadata sends a
    template that, once sanitized, has such a target, the whole
    aggregation raises and returns no job at all, for any other template
    and any other publisher. *)
Theorem malformed_target_aborts_aggregation
    relations relation raw_jobs raw sanitized groups sc targets t :
  In relation relations ->
  units relation <> [] ->
  truthy (scrape_metadata relation) = true ->
  scrape_jobs relation = JList raw_jobs ->
  In raw raw_jobs ->
  _sanitize_scrape_configuration raw = Ok sanitized ->
  dict_get sanitized "static_configs" = Some (JList groups) ->
  In (JDict sc) groups ->
  dict_get sc "targets" = Some (JList targets) ->
  In (JStr t) targets ->
  count_char ":" t = 0 ->
  exists e, aggregate relations = Raise e.
Proof.
  intros Hrel Hu Hm Hj Hraw Hsan Hsc Hg Ht Hin Hc.
  assert (Hsplit : split_host_port (JStr t) = Raise ValueError)
    by (apply split_host_port_other; rewrite Hc; discriminate).
  destruct (identifier (scrape_metadata relation)) as [prefix|e] eqn:Hi.
  - assert (Hne : raw_jobs <> []) by (intros ->; contradiction).
    destruct (label_all_raises raw_jobs raw prefix (_relation_hosts relation)
                (scrape_metadata relation) Hraw) as (e & He).
    { intros san Hsan'. rewrite Hsan in Hsan'. injection Hsan' as <-.
      eapply expand_raises; eauto. }
    apply (aggregate_raises relations relation e Hrel).
    rewrite (relation_config_labeled _ _ _ Hu Hj Hne Hm Hi), He.
    reflexivity.
  - apply (aggregate_raises relations relation e Hrel).
    unfold _static_scrape_config. rewrite Hj, Hm, Hi.
    destruct (units relation); [contradiction|].
    destruct raw_jobs; [contradiction | reflexivity].
Qed.

(** C2, as the code has it: a publisher with units and templates but
    empty metadata contributes its raw templates, as they were sent,
    between the jobs of the publishers before and after it; a publisher
    contributes nothing when it has no unit or no template. *)
Theorem publisher_without_metadata_contributes_raw_jobs
    before after relation b a :
  truthy (scrape_metadata relation) = false ->
  aggregate before = Ok b ->
  aggregate after = Ok a ->
  (forall raw_jobs,
     units relation <> [] ->
     scrape_jobs relation = JList raw_jobs ->
     aggregate (before ++ relation :: after) = Ok (b ++ raw_jobs ++ a)) /\
  (units relation = [] \/ truthy (scrape_jobs relation) = false ->
   aggregate (before ++ relation :: after) = Ok (b ++ a)).
Proof.
  intros Hm Hb Ha. split.
  - intros raw_jobs Hu Hj. apply aggregate_insert; try assumption.
    unfold _static_scrape_config. rewrite Hj, Hm.
    destruct (units relation); [contradiction|].
    destruct raw_jobs; reflexivity.
  - intros H. change (b ++ a) with (b ++ [] ++ a).
    apply aggregate_insert; try assumption.
    unfold _static_scrape_config. destruct H as [-> | ->]; [reflexivity|].
    destruct (units relation); reflexivity.
Qed.

Lemma flat_map_all_nil {A B : Type} (f : A -> list B) (l : list A) :
  Forall (fun x => f x = []) l -> flat_map f l = [].
Proof. induction 1 as [|x l Hx _ IH]; simpl; [|rewrite Hx, IH]; reflexivity. Qed.

(** C6, as the code has it: a relation without any unit is skipped,
    whatever its metadata and templates: it adds no job to the result.  A
    publisher with valid metadata whose units have not given an address
    (there are units, the resolved membership is empty) still gets a job
    for a valid wildcard-only template, with the resolved name, no static
    entry, and the uniqueness rule over the three topology labels as its
    only rule; the job stands at the place of its template in the
    result. *)
Theorem addressless_units_still_emit_job before after relation b a :
  aggregate before = Ok b ->
  aggregate after = Ok a ->
  (units relation = [] ->
   aggregate (before ++ relation :: after) = Ok (b ++ a)) /\
  (forall pre post raw sanitized groups prefix topo cpre cpost,
     units relation <> [] ->
     _relation_hosts relation = [] ->
     truthy (scrape_metadata relation) = true ->
     identifier (scrape_metadata relation) = Ok prefix ->
     label_matcher_dict (scrape_metadata relation) = Ok topo ->
     scrape_jobs relation = JList (pre ++ raw :: post) ->
     _sanitize_scrape_configuration raw = Ok sanitized ->
     dict_get sanitized "static_configs" = Some (JList groups) ->
     Forall valid_group groups ->
     Forall (fun g => qualified_targets (group_targets g) = []) groups ->
     label_all pre prefix [] (scrape_metadata relation) = Ok cpre ->
     label_all post prefix [] (scrape_metadata relation) = Ok cpost ->
     aggregate (before ++ relation :: after) =
       Ok (b ++
           (cpre ++
            JDict
              (dict_set
                 (dict_set
                    (dict_set sanitized "job_name"
                       (JStr (prefix ++ name_suffix py_str sanitized)))
                    "static_configs" (JList []))
                 "relabel_configs"
                 (JList [instance_relabel_config
                           ["juju_model"; "juju_model_uuid";
                            "juju_application"]]))
            :: cpost)
           ++ a)).
Proof.
  intros Hb Ha. split.
  - intros Hu. change (b ++ a) with (b ++ [] ++ a).
    apply aggregate_insert; try assumption.
    unfold _static_scrape_config. now rewrite Hu.
  - intros pre post raw sanitized groups prefix topo cpre cpost
           Hu Hh Hm Hi Htopo Hj Hsan Hsc Hg Hw Hpre Hpost.
    apply aggregate_insert; try assumption.
    assert (Hne : pre ++ raw :: post <> [])
      by (intros E; symmetry in E; exact (app_cons_not_nil _ _ _ E)).
    rewrite (relation_config_labeled _ _ _ Hu Hj Hne Hm Hi).
    rewrite Hh, label_all_app, Hpre. cbn [bind].
    rewrite label_all_cons, Hsan. cbn [bind].
    destruct (sanitize_drops_relabel_configs _ _ Hsan) as [Hnone _].
    rewrite (expand_valid sanitized prefix [] _ groups [] topo Hsc Hg);
      [|unfold existing_rules, dict_get_default; now rewrite Hnone | assumption].
    cbn [bind]. rewrite Hpost. cbn [bind]. unfold spec_job.
    rewrite flat_map_all_nil.
    + rewrite andb_false_r, app_nil_r. reflexivity.
    + clear -Hw. induction Hw as [|g gs Hq _ IH]; constructor; [|exact IH].
      unfold spec_group_entries. now rewrite Hq.
Qed.

End EngineFacts.

(** * The claims on the scenarios *)

(** Scenario A of the specification: one wildcard target, one member. *)
Example scenario_one_member :
  Scenario.aggregate
    [Scenario.publisher [Scenario.unit0] [Scenario.wildcard_job] Scenario.metadata]
  = Ok [JDict
          [("static_configs",
            JList [JDict [("labels",
                           JDict [("juju_model", JStr "model");
                                  ("juju_model_uuid", JStr "uuid123");
                                  ("juju_application", JStr "app");
                                  ("juju_unit", JStr "app/0")]);
                          ("targets", JList [JStr "10.0.0.5:8080"])]]);
           ("job_name", JStr "model_uuid123_app");
           ("relabel_configs",
            JList [instance_relabel_config
                     ["juju_model"; "juju_model_uuid"; "juju_application";
                      "juju_unit"]])]].
Proof. reflexivity. Qed.

(** Scenario C of the specification: two named templates of one
    publisher. *)
Example scenario_two_named_templates :
  match Scenario.aggregate
          [Scenario.publisher [Scenario.unit0]
             [Scenario.named_job "first"; Scenario.named_job "second"]
             Scenario.metadata]
  with
  | Ok out => map job_name_of out
  | Raise _ => []
  end
  = [Some (JStr "model_uuid123_app_first");
     Some (JStr "model_uuid123_app_second")].
Proof. reflexivity. Qed.

Ltac prove_nodup :=
  repeat (constructor; [simpl; intuition discriminate|]); constructor.

Ltac prove_valid_target :=
  eexists; split; [reflexivity | reflexivity].

(** The aggregation of [fleet_with_bad_target] raises. *)
Lemma malformed_target_aborts_aggregation_witness :
  exists e, Scenario.aggregate Scenario.fleet_with_bad_target = Raise e.
Proof.
  eapply (malformed_target_aborts_aggregation
            Scenario.identifier Scenario.label_matcher_dict Scenario.py_str
            Scenario.fleet_with_bad_target
            (Scenario.publisher [Scenario.unit0; Scenario.unit1]
               [Scenario.bad_job; Scenario.wildcard_job] Scenario.metadata)
            _ (JDict Scenario.bad_job) Scenario.bad_job _
            [("targets", JList [JStr "bad-target"])] _ "bad-target").
  - right. left. reflexivity.
  - discriminate.
  - reflexivity.
  - reflexivity.
  - left. reflexivity.
  - reflexivity.
  - reflexivity.
  - left. reflexivity.
  - reflexivity.
  - left. reflexivity.
  - reflexivity.
Defined.

(** C1 as stated fails: with one target without a colon in one template,
    the aggregation has no result, so the jobs of the other template and of
    the other publisher are not in it. *)
Lemma malformed_target_loses_every_job :
  Scenario.aggregate Scenario.fleet_with_bad_target = Raise ValueError.
Proof. reflexivity. Qed.

(** A publisher without metadata between no others. *)
Lemma publisher_without_metadata_contributes_raw_jobs_witness :
  Scenario.aggregate
    ([] ++ Scenario.publisher [Scenario.unit0] [Scenario.raw_job] (JDict []) :: [])
  = Ok ([] ++ [JDict Scenario.raw_job] ++ []).
Proof.
  apply (proj1 (publisher_without_metadata_contributes_raw_jobs
                  Scenario.identifier Scenario.label_matcher_dict Scenario.py_str
                  [] []
                  (Scenario.publisher [Scenario.unit0] [Scenario.raw_job] (JDict []))
                  [] [] eq_refl eq_refl eq_refl)).
  - discriminate.
  - reflexivity.
Defined.

(** C2 as stated fails: the publisher has no metadata and its raw template
    is in the result, with the key the sanitizer would have dropped. *)
Lemma empty_metadata_publisher_contributes :
  Scenario.aggregate
    [Scenario.publisher [Scenario.unit0] [Scenario.raw_job] (JDict [])]
  = Ok [JDict [("job_name", JStr "x"); ("metrics_path", JStr "/debug")]].
Proof. reflexivity. Qed.

(** Scenario B: one fully-qualified target and one wildcard port, two
    members: the fully-qualified entry first, then one entry per member. *)
Lemma expand_entries_per_member_and_group_witness :
  exists out,
    Scenario.expand Scenario.mixed_job "p" Scenario.hosts Scenario.metadata
      = Ok out /\
    dict_get out "static_configs" =
      Some (JList
              [qualified_entry Scenario.topology
                 [("some-key", JStr "some-value")] [JStr "10.1.32.215:7000"];
               member_entry Scenario.topology
                 [("some-key", JStr "some-value")] ["8000"] ("app/0", "10.0.0.5");
               member_entry Scenario.topology
                 [("some-key", JStr "some-value")] ["8000"] ("app/1", "10.0.0.6")]).
Proof.
  destruct (expand_entries_per_member_and_group
              Scenario.label_matcher_dict Scenario.py_str
              Scenario.mixed_job "p" Scenario.hosts Scenario.metadata
              [JDict [("targets", JList [JStr "10.1.32.215:7000"; JStr "*:8000"]);
                      ("labels", JDict [("some-key", JStr "some-value")])]]
              [] Scenario.topology)
    as (out & entries & H1 & H2 & H3 & _).
  - reflexivity.
  - constructor; [|constructor].
    eexists. split; [reflexivity|]. split.
    + right. eexists. reflexivity.
    + right. eexists. split; [reflexivity|].
      constructor; [prove_valid_target|].
      constructor; [prove_valid_target|]. constructor.
  - reflexivity.
  - reflexivity.
  - prove_nodup.
  - reflexivity.
  - exists out. split; [exact H1|]. rewrite H2, H3. reflexivity.
Defined.

(** C3 as stated fails: a group that labels its targets with [juju_unit]
    gets that label on the entry of its fully-qualified targets. *)
Lemma qualified_entry_keeps_user_unit_label :
  exists out e rest,
    Scenario.expand Scenario.rogue_label_job "p" Scenario.hosts Scenario.metadata
      = Ok out /\
    dict_get out "static_configs" = Some (JList (e :: rest)) /\
    e = qualified_entry Scenario.topology
          [("juju_unit", JStr "rogue"); ("juju_model", JStr "mine")]
          [JStr "10.1.32.215:7000"] /\
    is_member_entry e = false /\
    entry_label e "juju_unit" = Some (JStr "rogue").
Proof.
  do 3 eexists. split; [reflexivity|]. split; [reflexivity|].
  split; [reflexivity|]. split; reflexivity.
Qed.

(** A template with a rule of its own: the uniqueness rule comes after
    it. *)
Lemma uniqueness_rule_appended_last_witness :
  Scenario.expand Scenario.with_rules_job "p" Scenario.hosts Scenario.metadata
    = Ok Scenario.with_rules_out /\
  exists entries rules,
    existing_rules Scenario.with_rules_job = JList rules /\
    dict_get Scenario.with_rules_out "static_configs" = Some (JList entries) /\
    dict_get Scenario.with_rules_out "relabel_configs" =
      Some (JList
              (rules ++
               [JDict
                  [("source_labels",
                    JList (map JStr
                             (["juju_model"; "juju_model_uuid";
                               "juju_application"]
                              ++ if existsb is_member_entry entries
                                 then ["juju_unit"] else [])));
                   ("separator", JStr "_");
                   ("target_label", JStr "instance");
                   ("regex", JStr "(.*)")]])).
Proof.
  split; [reflexivity|].
  apply (uniqueness_rule_appended_last
           Scenario.label_matcher_dict Scenario.py_str
           Scenario.with_rules_job "p" Scenario.hosts Scenario.metadata).
  reflexivity.
Defined.

(** One unit that has given no address: the job is emitted, empty; no
    unit at all: nothing is emitted. *)
Lemma addressless_units_still_emit_job_witness :
  Scenario.aggregate
    ([] ++ Scenario.publisher [Scenario.silent_unit] [Scenario.wildcard_job]
             Scenario.metadata :: [])
  = Ok ([] ++
        ([] ++
         JDict [("static_configs", JList []);
                ("job_name", JStr "model_uuid123_app");
                ("relabel_configs",
                 JList [instance_relabel_config
                          ["juju_model"; "juju_model_uuid"; "juju_application"]])]
         :: [])
        ++ []) /\
  Scenario.aggregate
    ([] ++ Scenario.publisher [] [Scenario.wildcard_job; Scenario.mixed_job]
             Scenario.metadata :: [])
  = Ok ([] ++ []).
Proof.
  split.
  - apply (proj2 (addressless_units_still_emit_job
                    Scenario.identifier Scenario.label_matcher_dict
                    Scenario.py_str [] []
                    (Scenario.publisher [Scenario.silent_unit]
                       [Scenario.wildcard_job] Scenario.metadata)
                    [] [] eq_refl eq_refl)
             [] [] (JDict Scenario.wildcard_job) Scenario.wildcard_job
             [JDict [("targets", JList [JStr "*:8080"])]]
             "model_uuid123_app" Scenario.topology [] []).
    + discriminate.
    + reflexivity.
    + reflexivity.
    + reflexivity.
    + reflexivity.
    + reflexivity.
    + reflexivity.
    + reflexivity.
    + constructor; [|constructor].
      eexists. split; [reflexivity|]. split.
      * left. reflexivity.
      * right. eexists. split; [reflexivity|].
        constructor; [prove_valid_target | constructor].
    + constructor; [reflexivity | constructor].
    + reflexivity.
    + reflexivity.
  - apply (proj1 (addressless_units_still_emit_job
                    Scenario.identifier Scenario.label_matcher_dict
                    Scenario.py_str [] []
                    (Scenario.publisher [] [Scenario.wildcard_job;
                                            Scenario.mixed_job]
                       Scenario.metadata)
                    [] [] eq_refl eq_refl)).
    reflexivity.
Defined.

(** C6 as stated fails: valid metadata, a wildcard-only template and no
    unit at all: the publisher is skipped and no job is emitted. *)
Lemma no_units_no_job :
  _relation_hosts
    (Scenario.publisher [] [Scenario.wildcard_job] Scenario.metadata) = [] /\
  Scenario.aggregate
    [Scenario.publisher [] [Scenario.wildcard_job] Scenario.metadata] = Ok [].
Proof. split; reflexivity. Qed.

(** Scenario C: a template named [first]. *)
Lemma resolved_job_names_witness :
  Scenario.expand (Scenario.named_job "first") "p" Scenario.hosts Scenario.metadata
    = Ok Scenario.first_out /\
  dict_get Scenario.first_out "job_name" = Some (JStr "p_first").
Proof.
  split; [reflexivity|].
  destruct (resolved_job_names
              Scenario.label_matcher_dict Scenario.py_str
              (Scenario.named_job "first") "p" Scenario.hosts Scenario.metadata
              Scenario.first_out eq_refl) as (H & _).
  exact H.
Defined.

(** C7 as stated fails: two different templates without a name, from one
    publisher, give two different jobs with the same name. *)
Lemma nameless_templates_share_job_name :
  exists j1 j2,
    Scenario.aggregate
      [Scenario.publisher [Scenario.unit0]
         [Scenario.wildcard_job; Scenario.second_wildcard_job] Scenario.metadata]
      = Ok [JDict j1; JDict j2] /\
    j1 <> j2 /\
    dict_get j1 "job_name" = Some (JStr "model_uuid123_app") /\
    dict_get j2 "job_name" = Some (JStr "model_uuid123_app").
Proof.
  do 2 eexists. split; [reflexivity|].
  split; [discriminate|]. split; reflexivity.
Qed.


(** An IPv6 literal with a port has three colons. *)
Lemma target_needs_exactly_one_colon_witness :
  split_host_port (JStr "[::1]:8080") = Raise ValueError /\
  exists e,
    Scenario.expand Scenario.ipv6_job "p" Scenario.hosts Scenario.metadata
      = Raise e.
Proof.
  destruct (target_needs_exactly_one_colon
              Scenario.label_matcher_dict Scenario.py_str
              Scenario.ipv6_job "p" Scenario.hosts Scenario.metadata
              [JDict [("targets", JList [JStr "[::1]:8080"])]]
              [("targets", JList [JStr "[::1]:8080"])]
              [JStr "[::1]:8080"] "[::1]:8080")
    as (_ & H & _).
  - reflexivity.
  - left. reflexivity.
  - reflexivity.
  - left. reflexivity.
  - destruct H as (H1 & _ & H3); [vm_compute; discriminate|].
    split; assumption.
Defined.

(** The sanitizer on a raw job with a key outside the allow-list. *)
Lemma sanitize_allow_list_witness :
  exists out,
    _sanitize_scrape_configuration (JDict Scenario.raw_job) = Ok out /\
    dict_get out "static_configs" =
      Some (JList [JDict [("targets", JList [JStr "*:80"])]]) /\
    forall k, In k (dict_keys out) -> In k ALLOWED_KEYS.
Proof.
  destruct (sanitize_allow_list Scenario.raw_job) as (out & H1 & H2 & H3 & _).
  exists out. split; [exact H1|]. split; [|exact H2].
  apply H3. simpl. intuition discriminate.
Defined.


(** * Beyond the claims: the sanitizer *)

Lemma dict_set_fresh {V : Type} (d : dict V) (k : string) (v : V) :
  ~ In k (dict_keys d) -> dict_set d k v = d ++ [(k, v)].
Proof.
  induction d as [|[k0 v0] d IH]; simpl; intros H; [reflexivity|].
  destruct (String.eqb_spec k0 k) as [->|_]; [tauto|].
  rewrite IH by tauto. reflexivity.
Qed.

Lemma dict_set_keys_nodup {V : Type} (d : dict V) (k : string) (v : V) :
  NoDup (dict_keys d) -> NoDup (dict_keys (dict_set d k v)).
Proof.
  induction d as [|[k0 v0] d IH]; simpl; intros H.
  - constructor; [tauto | constructor].
  - inversion H as [|? ? Hout Hd]; subst.
    destruct (String.eqb_spec k0 k) as [->|Hne]; simpl.
    + now constructor.
    + constructor; [|auto]. rewrite dict_keys_set. intros [->|Hin]; tauto.
Qed.

Lemma dict_update_keys_nodup {V : Type} (d other : dict V) :
  NoDup (dict_keys d) -> NoDup (dict_keys (dict_update d other)).
Proof.
  unfold dict_update. revert d.
  induction other as [|[k v] other IH]; intros d H; simpl; [assumption|].
  apply IH. now apply dict_set_keys_nodup.
Qed.

(** Updating with a dict that shares no key is concatenation. *)
Lemma dict_update_disjoint {V : Type} (other d : dict V) :
  NoDup (dict_keys (d ++ other)) -> dict_update d other = d ++ other.
Proof.
  unfold dict_update. revert d.
  induction other as [|[k v] other IH]; intros d H; simpl.
  - now rewrite app_nil_r.
  - assert (Hk : ~ In k (dict_keys d)).
    { unfold dict_keys in *. rewrite map_app in H. simpl in H.
      apply NoDup_remove_2 in H. intros Hin. apply H, in_or_app. now left. }
    rewrite (dict_set_fresh d k v Hk), IH; rewrite <- app_assoc; auto.
Qed.

Lemma dict_update_same_head {V : Type} (k : string) (x v : V) (rest : dict V) :
  NoDup (dict_keys ((k, v) :: rest)) ->
  dict_update [(k, x)] ((k, v) :: rest) = (k, v) :: rest.
Proof.
  intros H. unfold dict_update. simpl. rewrite String.eqb_refl.
  exact (dict_update_disjoint rest [(k, v)] H).
Qed.

Lemma dict_update_head {V : Type} (other : dict V) :
  forall k v d, exists v' d', dict_update ((k, v) :: d) other = (k, v') :: d'.
Proof.
  unfold dict_update.
  induction other as [|[k1 v1] other IH]; intros k v d; simpl; [eauto|].
  destruct (String.eqb k k1); apply IH.
Qed.

Lemma dict_get_filter_key {V : Type} (p : string -> bool) (d : dict V) (k : string) :
  dict_get (filter (fun kv => p (fst kv)) d) k =
    if p k then dict_get d k else None.
Proof.
  induction d as [|[k0 v0] d IH]; simpl; [now destruct (p k)|].
  destruct (p k0) eqn:P0; simpl.
  - destruct (String.eqb_spec k0 k) as [->|_]; [now rewrite P0 | exact IH].
  - destruct (String.eqb_spec k0 k) as [->|_]; [|exact IH].
    rewrite IH, P0. reflexivity.
Qed.

Lemma filter_keys_nodup {V : Type} (p : string * V -> bool) (d : dict V) :
  NoDup (dict_keys d) -> NoDup (dict_keys (filter p d)).
Proof.
  induction d as [|[k0 v0] d IH]; simpl; intros H; [constructor|].
  inversion H as [|? ? Hout Hd]; subst.
  destruct (p (k0, v0)); simpl; [|auto].
  constructor; [|auto]. intros Hin. apply Hout.
  unfold dict_keys in *. apply in_map_iff in Hin as (kv & E & Hin).
  apply filter_In in Hin as [Hin _]. apply in_map_iff. eauto.
Qed.

Lemma filter_all {A : Type} (p : A -> bool) (l : list A) :
  (forall x, In x l -> p x = true) -> filter p l = l.
Proof.
  induction l as [|x l IH]; simpl; intros H; [reflexivity|].
  rewrite (H x) by now left. rewrite IH; auto.
Qed.

(** The sanitized job is a fixed point of the sanitizer. *)
Lemma sanitize_fixed (raw : json) (out : dict json) :
  _sanitize_scrape_configuration raw = Ok out ->
  _sanitize_scrape_configuration (JDict out) = Ok out.
Proof.
  destruct raw as [| | | | |items]; try discriminate.
  intros H0.
  assert (H : dict_update DEFAULT_JOB
                (dict_update []
                   (filter (fun kv => existsb (String.eqb (fst kv)) ALLOWED_KEYS)
                           items)) = out)
    by (unfold _sanitize_scrape_configuration in H0; congruence).
  clear H0. unfold _sanitize_scrape_configuration. f_equal.
  assert (Hnd : NoDup (dict_keys out)).
  { rewrite <- H. apply dict_update_keys_nodup. simpl.
    constructor; [tauto | constructor]. }
  assert (Hall : filter (fun kv => existsb (String.eqb (fst kv)) ALLOWED_KEYS) out
                 = out).
  { apply filter_all. intros [k v] Hin.
    apply (proj2 (existsb_eqb_In k ALLOWED_KEYS)).
    assert (Hk : In k (dict_keys out))
      by (unfold dict_keys; apply in_map_iff; exists (k, v); auto).
    rewrite <- H in Hk. apply sanitized_keys in Hk as [->|[_ Hk]]; [|exact Hk].
    simpl. tauto. }
  rewrite Hall, (dict_update_disjoint out []) by exact Hnd.
  destruct (dict_update_head
              (dict_update []
                 (filter (fun kv => existsb (String.eqb (fst kv)) ALLOWED_KEYS)
                         items))
              "static_configs"
              (JList [JDict [("targets", JList [JStr "*:80"])]]) [])
    as (v' & d' & E).
  change (dict_update DEFAULT_JOB
            (dict_update []
               (filter (fun kv => existsb (String.eqb (fst kv)) ALLOWED_KEYS)
                       items)) = ("static_configs", v') :: d') in E.
  rewrite H in E. clear H Hall. subst out.
  apply (dict_update_same_head "static_configs"). exact Hnd.
Qed.

(** X1: what the sanitizer returns, it returns unchanged when given it
    again: the provider sanitizes its jobs when it is built, the consumer
    sanitizes what it receives, and the second pass changes nothing. *)
Theorem sanitize_idempotent (raw : json) (out : dict json) :
  _sanitize_scrape_configuration raw = Ok out ->
  _sanitize_scrape_configuration (JDict out) = Ok out.
Proof. exact (sanitize_fixed raw out). Qed.

Lemma sanitize_idempotent_witness :
  _sanitize_scrape_configuration (JDict Fixtures.timed_job)
    = Ok Fixtures.timed_sanitized /\
  _sanitize_scrape_configuration (JDict Fixtures.timed_sanitized)
    = Ok Fixtures.timed_sanitized.
Proof.
  split; [reflexivity|].
  apply (sanitize_idempotent (JDict Fixtures.timed_job)). reflexivity.
Defined.

Lemma sanitized_lookup (items : dict json) (k : string) :
  NoDup (dict_keys items) ->
  dict_get
    (dict_update DEFAULT_JOB
       (dict_update []
          (filter (fun kv => existsb (String.eqb (fst kv)) ALLOWED_KEYS) items)))
    k =
    if String.eqb k "static_configs"
    then Some (dict_get_default items "static_configs"
                 (JList [JDict [("targets", JList [JStr "*:80"])]]))
    else if existsb (String.eqb k) ALLOWED_KEYS then dict_get items k else None.
Proof.
  intros Hnd.
  set (allowed := filter _ items).
  assert (Hf : NoDup (dict_keys allowed)) by now apply filter_keys_nodup.
  rewrite (dict_update_disjoint allowed []) by exact Hf. cbn [app].
  assert (Hget : dict_get allowed k =
                 if existsb (String.eqb k) ALLOWED_KEYS
                 then dict_get items k else None)
    by apply (dict_get_filter_key (fun k => existsb (String.eqb k) ALLOWED_KEYS)).
  destruct (dict_get allowed k) as [v|] eqn:E.
  - rewrite (dict_get_update_other DEFAULT_JOB allowed k v Hf E).
    destruct (String.eqb_spec k "static_configs") as [->|_].
    + unfold dict_get_default. simpl in Hget. now rewrite <- Hget.
    + exact Hget.
  - rewrite dict_get_update_notin
      by (rewrite dict_get_keys; intros H; now apply H).
    destruct (String.eqb_spec k "static_configs") as [->|Hne].
    + unfold dict_get_default. simpl in Hget. now rewrite <- Hget.
    + rewrite <- Hget. unfold DEFAULT_JOB. cbn [dict_get].
      destruct (String.eqb_spec "static_configs" k); [congruence | reflexivity].
Qed.

(** X2: what the sanitizer keeps of a raw job: every allow-listed key with
    the value the job gives it, nothing under any other key, and under
    ["static_configs"] the value of the job or, when the job has none, the
    default target group. *)
Theorem sanitize_lookup (items : dict json) (k : string) :
  NoDup (dict_keys items) ->
  exists out,
    _sanitize_scrape_configuration (JDict items) = Ok out /\
    dict_get out k =
      if String.eqb k "static_configs"
      then Some (dict_get_default items "static_configs"
                   (JList [JDict [("targets", JList [JStr "*:80"])]]))
      else if existsb (String.eqb k) ALLOWED_KEYS then dict_get items k
           else None.
Proof.
  intros Hnd. eexists. split; [reflexivity|]. now apply sanitized_lookup.
Qed.

Lemma sanitize_lookup_witness :
  exists out,
    _sanitize_scrape_configuration (JDict Fixtures.timed_job) = Ok out /\
    dict_get out "scrape_interval" = Some (JStr "10s").
Proof.
  destruct (sanitize_lookup Fixtures.timed_job "scrape_interval")
    as (out & H1 & H2); [prove_nodup|].
  exists out. split; [exact H1 | exact H2].
Defined.

(** * Beyond the claims: the provider *)

Lemma sanitize_all_fixed (jobs : list json) (out : list (dict json)) :
  sanitize_all jobs = Ok out ->
  length out = length jobs /\
  Forall (fun j => _sanitize_scrape_configuration (JDict j) = Ok j) out.
Proof.
  revert out. induction jobs as [|job jobs IH]; intros out; simpl.
  - intros H. injection H as <-. split; [reflexivity | constructor].
  - destruct (_sanitize_scrape_configuration job) as [san|] eqn:S;
      cbn [bind]; [|discriminate].
    destruct (sanitize_all jobs) as [others|]; cbn [bind]; [|discriminate].
    intros H. injection H as <-. destruct (IH others eq_refl) as [L F].
    split; [simpl; now rewrite L|].
    constructor; [exact (sanitize_fixed job san S) | exact F].
Qed.

(** X3: a provider never publishes an empty job list.  Built without jobs
    or with an empty list it publishes the default job alone; built with
    jobs it publishes as many jobs as it was given; and every job it
    publishes is one the sanitizer of the consumer leaves unchanged. *)
Theorem provider_publishes_sanitized_jobs
    (jobs : option (list json)) (self_jobs : list (dict json)) :
  provider_jobs jobs = Ok self_jobs ->
  _scrape_jobs self_jobs <> [] /\
  (jobs = None \/ jobs = Some [] -> _scrape_jobs self_jobs = [DEFAULT_JOB]) /\
  (forall job rest, jobs = Some (job :: rest) ->
     _scrape_jobs self_jobs = self_jobs /\
     length self_jobs = S (length rest)) /\
  Forall (fun j => _sanitize_scrape_configuration (JDict j) = Ok j)
         (_scrape_jobs self_jobs).
Proof.
  unfold provider_jobs. intros H.
  destruct (sanitize_all_fixed _ _ H) as [L F].
  split; [|split; [|split]].
  - unfold _scrape_jobs. destruct self_jobs; discriminate.
  - intros [-> | ->]; simpl in H; injection H as <-; reflexivity.
  - intros job rest ->. simpl in L.
    destruct self_jobs; [discriminate|]. split; [reflexivity | exact L].
  - unfold _scrape_jobs. destruct self_jobs; [|exact F].
    constructor; [reflexivity | constructor].
Qed.

Lemma provider_publishes_sanitized_jobs_witness :
  _scrape_jobs [] = [DEFAULT_JOB] /\
  _sanitize_scrape_configuration (JDict DEFAULT_JOB) = Ok DEFAULT_JOB.
Proof.
  destruct (provider_publishes_sanitized_jobs None [] eq_refl)
    as (_ & H & _ & F).
  split; [apply H; now left|].
  rewrite (H (or_introl eq_refl)) in F. now inversion F.
Defined.

Lemma sanitize_all_dicts (jobs : list json) :
  forallb is_dict jobs = true -> exists out, sanitize_all jobs = Ok out.
Proof.
  induction jobs as [|job jobs IH]; simpl; [eauto|].
  intros H. apply andb_prop in H as [Hd Hr].
  destruct job; try discriminate. destruct (IH Hr) as (out & ->).
  cbn [_sanitize_scrape_configuration bind]. eauto.
Qed.

Lemma sanitize_all_not_dicts (jobs : list json) :
  forallb is_dict jobs = false -> sanitize_all jobs = Raise AttributeError.
Proof.
  induction jobs as [|job jobs IH]; simpl; [discriminate|].
  destruct job; simpl; try reflexivity.
  intros H. rewrite (IH H). reflexivity.
Qed.

(** X4: building a provider succeeds exactly when every job it is given
    is a dict; one job of another kind makes the constructor raise
    [AttributeError], wherever the job stands in the list. *)
Theorem provider_needs_dict_jobs (jobs : list json) :
  (forallb is_dict jobs = true ->
   exists self_jobs,
     provider_jobs (Some jobs) = Ok self_jobs /\
     length self_jobs = length jobs) /\
  (forallb is_dict jobs = false ->
   provider_jobs (Some jobs) = Raise AttributeError).
Proof.
  split.
  - intros H. destruct (sanitize_all_dicts jobs H) as (out & E).
    exists out. split; [exact E|]. now apply sanitize_all_fixed.
  - apply sanitize_all_not_dicts.
Qed.

Lemma provider_needs_dict_jobs_witness :
  provider_jobs (Some [JDict Scenario.wildcard_job; JStr "*:80"])
    = Raise AttributeError.
Proof.
  apply (proj2 (provider_needs_dict_jobs
                  [JDict Scenario.wildcard_job; JStr "*:80"])).
  reflexivity.
Defined.

(** * Beyond the claims: the address resolver *)

Lemma relation_hosts_fold (r : Relation) :
  _relation_hosts r = fold_left hosts_step (units r) [].
Proof.
  unfold _relation_hosts. generalize (@nil (string * string)).
  induction (units r) as [|u us IH]; intros h; [reflexivity|].
  cbn [fold_left]. rewrite IH. f_equal.
  unfold hosts_step, unit_host, unit_name_of, unit_address_of.
  destruct (str_or _ (Some (name u))) as [n|]; [|reflexivity].
  destruct (str_or _ _) as [a|]; [|reflexivity].
  cbn [str_truthy]. destruct (negb (n =? "") && negb (a =? "")); reflexivity.
Qed.

Lemma unit_host_inv (u : Unit) (n a : string) :
  unit_host u = Some (n, a) ->
  unit_name_of u = Some n /\ unit_address_of u = Some a /\ n <> "" /\ a <> "".
Proof.
  unfold unit_host.
  destruct (unit_name_of u) as [n'|]; [|discriminate].
  destruct (unit_address_of u) as [a'|]; [|discriminate].
  destruct (String.eqb_spec n' ""), (String.eqb_spec a' ""); try discriminate.
  intros H. injection H as <- <-. auto.
Qed.

Lemma unit_host_intro (u : Unit) (n a : string) :
  unit_name_of u = Some n -> unit_address_of u = Some a ->
  n <> "" -> a <> "" -> unit_host u = Some (n, a).
Proof.
  unfold unit_host. intros -> -> Hn Ha.
  destruct (String.eqb_spec n ""), (String.eqb_spec a ""); try contradiction.
  reflexivity.
Qed.

Lemma dict_set_length {V : Type} (d : dict V) (k : string) (v : V) :
  length (dict_set d k v) <= S (length d).
Proof.
  induction d as [|[k0 v0] d IH]; simpl; [lia|].
  destruct (String.eqb k0 k); simpl; lia.
Qed.

Lemma hosts_fold_inv (us : list Unit) :
  forall h,
    NoDup (dict_keys h) ->
    NoDup (dict_keys (fold_left hosts_step us h)) /\
    length (fold_left hosts_step us h) <= length h + length us /\
    forall n a,
      In (n, a) (fold_left hosts_step us h) ->
      In (n, a) h \/ exists u, In u us /\ unit_host u = Some (n, a).
Proof.
  induction us as [|u us IH]; intros h Hnd; cbn [fold_left].
  - split; [assumption|]. split; [simpl; lia | auto].
  - assert (Hnd' : NoDup (dict_keys (hosts_step h u))).
    { unfold hosts_step. destruct (unit_host u) as [[n a]|]; [|assumption].
      now apply dict_set_keys_nodup. }
    destruct (IH _ Hnd') as (N & L & I). split; [exact N|]. split.
    + assert (length (hosts_step h u) <= S (length h)).
      { unfold hosts_step. destruct (unit_host u) as [[n a]|]; [|lia].
        apply dict_set_length. }
      simpl. lia.
    + intros n a Hin. destruct (I n a Hin) as [Hh|(u' & Hu' & E)].
      * unfold hosts_step in Hh. destruct (unit_host u) as [[n' a']|] eqn:E;
          [|now left].
        apply dict_set_In in Hh as [Hh|Hh]; [|now left].
        injection Hh as -> ->. right. exists u. split; [now left | exact E].
      * right. exists u'. split; [now right | exact E].
Qed.

(** X5: the hosts of a relation form a proper mapping: no name twice, no
    more entries than units, and every entry is the name and the address
    that some unit of the relation resolves to, both non-empty. *)
Theorem relation_hosts_invariant (r : Relation) :
  NoDup (dict_keys (_relation_hosts r)) /\
  length (_relation_hosts r) <= length (units r) /\
  forall n a,
    In (n, a) (_relation_hosts r) ->
    n <> "" /\ a <> "" /\
    exists u, In u (units r) /\
              unit_name_of u = Some n /\ unit_address_of u = Some a.
Proof.
  rewrite relation_hosts_fold.
  destruct (hosts_fold_inv (units r) [] (NoDup_nil _)) as (N & L & I).
  split; [exact N|]. split; [exact L|].
  intros n a Hin. destruct (I n a Hin) as [[]|(u & Hu & E)].
  apply unit_host_inv in E as (E1 & E2 & Hn & Ha). eauto 8.
Qed.

Lemma hosts_fold_other_names (n : string) (us : list Unit) :
  Forall (fun u => unit_name_of u <> Some n) us ->
  forall h, dict_get (fold_left hosts_step us h) n = dict_get h n.
Proof.
  induction 1 as [|u us Hu _ IH]; intros h; cbn [fold_left]; [reflexivity|].
  rewrite IH. unfold hosts_step.
  destruct (unit_host u) as [[n' a']|] eqn:E; [|reflexivity].
  apply unit_host_inv in E as (E & _). apply dict_get_set_neq. congruence.
Qed.

(** X6: looking a name up in the hosts gives the address of the last
    unit that resolves to that name: a unit with a non-empty name and
    address that no later unit shares the name of is found under its name,
    whatever the units before it published. *)
Theorem relation_hosts_last_unit_wins
    (r : Relation) (before after : list Unit) (u : Unit) (n a : string) :
  units r = before ++ u :: after ->
  unit_name_of u = Some n ->
  unit_address_of u = Some a ->
  n <> "" ->
  a <> "" ->
  Forall (fun u' => unit_name_of u' <> Some n) after ->
  dict_get (_relation_hosts r) n = Some a.
Proof.
  intros Hu Hn Ha Hne Hae Hafter.
  rewrite relation_hosts_fold, Hu, fold_left_app. cbn [fold_left].
  rewrite (hosts_fold_other_names n after Hafter).
  unfold hosts_step at 1. rewrite (unit_host_intro u n a Hn Ha Hne Hae).
  apply dict_get_set_eq.
Qed.

Lemma relation_hosts_last_unit_wins_witness :
  dict_get
    (_relation_hosts
       {| units := [Scenario.unit0;
                    {| name := "app/0";
                       unit_data := [("parca_scrape_host", "10.0.0.9")] |};
                    Scenario.unit1];
          scrape_jobs := JList [];
          scrape_metadata := JDict [] |})
    "app/0"
  = Some "10.0.0.9".
Proof.
  apply (relation_hosts_last_unit_wins _ [Scenario.unit0]
           [Scenario.unit1]
           {| name := "app/0";
              unit_data := [("parca_scrape_host", "10.0.0.9")] |}).
  - reflexivity.
  - reflexivity.
  - reflexivity.
  - discriminate.
  - discriminate.
  - constructor; [discriminate | constructor].
Defined.

Lemma written_unit_host (fqdn n : string) (bag : dict string) :
  n <> "" -> fqdn <> "" ->
  unit_host {| name := n; unit_data := write_unit_ip fqdn n bag |}
    = Some (n, fqdn).
Proof.
  intros Hn Hf. apply unit_host_intro; try assumption.
  - unfold unit_name_of, write_unit_ip. cbn [unit_data name].
    rewrite dict_get_set_eq. unfold str_or.
    destruct (String.eqb_spec n ""); [contradiction | reflexivity].
  - unfold unit_address_of, write_unit_ip. cbn [unit_data].
    rewrite dict_get_set_neq by discriminate. rewrite dict_get_set_eq.
    unfold str_or. destruct (String.eqb_spec fqdn ""); [contradiction | reflexivity].
Qed.

Lemma written_units_fold (us : list (Unit * string)) :
  Forall (fun p => name (fst p) <> "" /\ snd p <> "") us ->
  forall h,
    NoDup (dict_keys h ++ map (fun p => name (fst p)) us) ->
    fold_left hosts_step
      (map (fun p => {| name := name (fst p);
                        unit_data := write_unit_ip (snd p) (name (fst p))
                                       (unit_data (fst p)) |}) us) h
    = h ++ map (fun p => (name (fst p), snd p)) us.
Proof.
  induction 1 as [|[u f] us [Hn Hf] _ IH]; intros h Hnd; cbn [map fold_left].
  - now rewrite app_nil_r.
  - cbn [fst snd] in *. unfold hosts_step at 2.
    rewrite (written_unit_host f (name u) (unit_data u) Hn Hf).
    assert (Hk : ~ In (name u) (dict_keys h)).
    { apply NoDup_remove_2 in Hnd. intros Hin. apply Hnd, in_or_app. now left. }
    rewrite (dict_set_fresh h _ f Hk), IH.
    + now rewrite <- app_assoc.
    + unfold dict_keys in *. rewrite map_app, <- app_assoc. exact Hnd.
Qed.

(** X7: what the provider units write is what the consumer reads.  When
    each unit of a relation, the names being distinct and non-empty, has
    written its non-empty host name with [_set_unit_ip], the hosts of the
    relation are exactly the pairs of unit name and host name, in the order
    of the units, whatever the databags held before; and every databag
    that [_set_unit_ip] has written resolves to the name and host name of
    the unit. *)
Theorem unit_ip_round_trip
    (us : list (Unit * string)) (jobs md : json) :
  NoDup (map (fun p => name (fst p)) us) ->
  Forall (fun p => name (fst p) <> "" /\ snd p <> "") us ->
  _relation_hosts
    {| units :=
         map (fun p => {| name := name (fst p);
                          unit_data := write_unit_ip (snd p) (name (fst p))
                                         (unit_data (fst p)) |}) us;
       scrape_jobs := jobs;
       scrape_metadata := md |}
  = map (fun p => (name (fst p), snd p)) us /\
  forall p bags bag,
    In p us ->
    In bag (_set_unit_ip (snd p) (name (fst p)) bags) ->
    unit_host {| name := name (fst p); unit_data := bag |}
      = Some (name (fst p), snd p).
Proof.
  intros Hnd Hall. split.
  - rewrite relation_hosts_fold. cbn [units].
    now rewrite (written_units_fold us Hall []).
  - intros p bags bag Hp Hbag. unfold _set_unit_ip in Hbag.
    apply in_map_iff in Hbag as (bag0 & <- & _).
    rewrite Forall_forall in Hall. destruct (Hall p Hp) as [Hn Hf].
    now apply written_unit_host.
Qed.

Lemma unit_ip_round_trip_witness :
  _relation_hosts
    {| units :=
         [{| name := "app/3";
             unit_data := write_unit_ip "zinc-3.local" "app/3"
                            [("parca_scrape_host", "10.0.0.9")] |}];
       scrape_jobs := JList [];
       scrape_metadata := JDict [] |}
  = [("app/3", "zinc-3.local")].
Proof.
  apply (proj1 (unit_ip_round_trip [(Fixtures.legacy_unit, "zinc-3.local")]
                  (JList []) (JDict [])
                  ltac:(prove_nodup)
                  ltac:(constructor; [split; discriminate | constructor]))).
Defined.

(** * Beyond the claims: the targets of a group *)

Lemma lstrip_first (s : string) (c : ascii) :
  first_char (lstrip s) = Some c -> is_space c = false.
Proof.
  induction s as [|c0 s IH]; simpl; [discriminate|].
  destruct (is_space c0) eqn:E; [exact IH|].
  simpl. intros H. injection H as <-. exact E.
Qed.

Lemma rstrip_first (s : string) (c : ascii) :
  first_char (rstrip s) = Some c -> first_char s = Some c.
Proof.
  destruct s as [|c0 s]; simpl; [discriminate|].
  destruct (rstrip s); [destruct (is_space c0)|]; simpl; congruence.
Qed.

Lemma rstrip_last (s : string) (c : ascii) :
  last_char (rstrip s) = Some c -> is_space c = false.
Proof.
  induction s as [|c0 s IH]; simpl; [discriminate|].
  destruct (rstrip s) as [|a r] eqn:E.
  - destruct (is_space c0) eqn:S0; simpl; [discriminate|].
    intros H. injection H as <-. exact S0.
  - intros H. apply IH. exact H.
Qed.

Lemma strip_trimmed (s : string) : trimmed (strip s).
Proof.
  unfold trimmed, strip. split; intros c H.
  - apply (lstrip_first s). now apply rstrip_first.
  - now apply (rstrip_last (lstrip s)).
Qed.

Lemma wildcard_ports_trimmed (targets : list json) :
  Forall trimmed (wildcard_ports targets).
Proof.
  unfold wildcard_ports. induction targets as [|t ts IH]; simpl; [constructor|].
  destruct t; simpl; try exact IH.
  destruct (String.eqb (strip (host_of s)) "*"); simpl; [|exact IH].
  constructor; [apply strip_trimmed | exact IH].
Qed.

Lemma split_host_port_valid (t : json) (hp : string * string) :
  split_host_port t = Ok hp -> valid_target t.
Proof.
  destruct t as [| | |s| |]; try discriminate. intros H. exists s.
  split; [reflexivity|].
  destruct (Nat.eq_dec (count_char ":" s) 1) as [E|E]; [exact E|].
  rewrite (split_host_port_other s E) in H. discriminate.
Qed.

Lemma partition_targets_ok_valid (targets : list json) :
  forall ports unitless out,
    partition_targets targets ports unitless = Ok out ->
    Forall valid_target targets.
Proof.
  induction targets as [|t ts IH]; intros ports unitless out; [constructor|].
  rewrite partition_targets_cons.
  destruct (split_host_port t) as [[h p]|] eqn:E; cbn [bind]; [|discriminate].
  intros H. constructor; [exact (split_host_port_valid t _ E)|].
  destruct (String.eqb (strip h) "*"); eapply IH; exact H.
Qed.

(** X8: the partition of the targets of a group returns exactly when
    every target is a string with one colon, and then it returns the
    stripped ports of the wildcard targets and the other targets, each list
    in the order of the targets; the ports have no whitespace at either
    end, while a fully-qualified target is kept as it was written. *)
Theorem partition_targets_characterised
    (targets : list json) (ports : list string) (unitless : list json) :
  (partition_targets targets [] [] = Ok (ports, unitless) <->
   Forall valid_target targets /\
   ports = wildcard_ports targets /\
   unitless = qualified_targets targets) /\
  Forall trimmed (wildcard_ports targets) /\
  (forall t, In t (qualified_targets targets) -> In t targets).
Proof.
  split; [split|split].
  - intros H. pose proof (partition_targets_ok_valid _ _ _ _ H) as Hv.
    rewrite (partition_targets_valid _ Hv) in H. injection H as <- <-. auto.
  - intros (Hv & -> & ->). now rewrite (partition_targets_valid _ Hv).
  - apply wildcard_ports_trimmed.
  - intros t H. unfold qualified_targets in H. now apply filter_In in H.
Qed.

Lemma partition_targets_characterised_witness :
  partition_targets [JStr "10.1.32.215:7000"; JStr " * : 8000 "] [] []
    = Ok (["8000"], [JStr "10.1.32.215:7000"]).
Proof.
  apply (proj1 (partition_targets_characterised
                  [JStr "10.1.32.215:7000"; JStr " * : 8000 "]
                  ["8000"] [JStr "10.1.32.215:7000"])).
  split; [|split; reflexivity].
  constructor; [prove_valid_target|].
  constructor; [prove_valid_target | constructor].
Defined.

(** * Beyond the claims: what reaches the concrete jobs *)

Section JobFacts.
Variable identifier : json -> result string.
Variable label_matcher_dict : json -> result (dict json).
Variable py_str : json -> string.

Local Abbreviation expand := (_labeled_static_job_config label_matcher_dict py_str).
Local Abbreviation label_all := (label_jobs label_matcher_dict py_str).
Local Abbreviation relation_config :=
  (_static_scrape_config identifier label_matcher_dict py_str).

(** X9: of the keys of a raw job, the concrete job keeps the two timing
    keys of the allow-list with their values; any other key of the raw job
    is gone (the name, the target groups and the relabeling rules being the
    three keys the engine writes itself). *)
Theorem concrete_job_keeps_timing_keys
    (items sanitized out : dict json) (prefix : string) (hosts : dict string)
    (md : json) (k : string) :
  NoDup (dict_keys items) ->
  _sanitize_scrape_configuration (JDict items) = Ok sanitized ->
  expand sanitized prefix hosts md = Ok out ->
  k <> "job_name" -> k <> "static_configs" -> k <> "relabel_configs" ->
  dict_get out k =
    if (String.eqb k "scrape_interval" || String.eqb k "scrape_timeout")%bool
    then dict_get items k else None.
Proof.
  intros Hnd Hsan Hexp H1 H2 H3.
  apply (expand_inv label_matcher_dict py_str) in Hexp
    as (entries & rules & _ & ->).
  rewrite !dict_get_set_neq by congruence.
  assert (E : dict_update DEFAULT_JOB
                (dict_update []
                   (filter (fun kv => existsb (String.eqb (fst kv)) ALLOWED_KEYS)
                           items)) = sanitized)
    by (unfold _sanitize_scrape_configuration in Hsan; congruence).
  rewrite <- E, (sanitized_lookup items k Hnd).
  unfold ALLOWED_KEYS. cbn [existsb].
  destruct (String.eqb_spec k "static_configs"); [contradiction|].
  destruct (String.eqb_spec k "job_name"); [contradiction|].
  rewrite orb_false_r. reflexivity.
Qed.

(** X10: a publisher with metadata gets one concrete job per template, in
    the order of the templates; each has the name made of the prefix and
    the name of its sanitized template, and the uniqueness rule as its only
    relabeling rule: the relabeling rules a publisher sends are dropped by
    the sanitizer and never reach the result. *)
Theorem one_job_per_template
    (raws : list json) (prefix : string) (hosts : dict string) (md : json)
    (configs : list json) :
  label_all raws prefix hosts md = Ok configs ->
  Forall2
    (fun raw config =>
       exists sanitized out entries,
         _sanitize_scrape_configuration raw = Ok sanitized /\
         config = JDict out /\
         dict_get out "job_name" =
           Some (JStr (prefix ++ name_suffix py_str sanitized)) /\
         dict_get out "static_configs" = Some (JList entries) /\
         dict_get out "relabel_configs" =
           Some (JList
                   [instance_relabel_config
                      (BASE_SOURCE_LABELS ++
                       if existsb is_member_entry entries
                       then ["juju_unit"] else [])]))
    raws configs.
Proof.
  revert configs. induction raws as [|raw raws IH]; intros configs.
  - intros H. injection H as <-. constructor.
  - rewrite label_all_cons.
    destruct (_sanitize_scrape_configuration raw) as [san|] eqn:S;
      cbn [bind]; [|discriminate].
    destruct (expand san prefix hosts md) as [out|] eqn:X; cbn [bind];
      [|discriminate].
    destruct (label_all raws prefix hosts md) as [rest|]; cbn [bind];
      [|discriminate].
    intros H. injection H as <-. constructor; [|now apply IH].
    apply (expand_inv label_matcher_dict py_str) in X
      as (entries & rules & Hr & ->).
    destruct (sanitize_drops_relabel_configs raw san S) as [Hnone _].
    unfold existing_rules, dict_get_default in Hr. rewrite Hnone in Hr.
    injection Hr as <-.
    exists san. eexists. exists entries.
    split; [exact S|]. split; [reflexivity|]. split; [|split].
    + rewrite !dict_get_set_neq by discriminate.
      now rewrite dict_get_set_eq, resolved_name_suffix.
    + rewrite dict_get_set_neq by discriminate. apply dict_get_set_eq.
    + apply dict_get_set_eq.
Qed.

(** X11: the default job, the one a provider built without jobs
    publishes, makes the consumer scrape every resolved unit on port 80:
    one job named by the prefix alone, with one entry per host, labeled
    with the topology and the name of the host, whose only target is the
    address of the host followed by [:80]. *)
Theorem default_job_scrapes_port_80
    (relation : Relation) (prefix : string) (topo : dict json) :
  units relation <> [] ->
  scrape_jobs relation = JList (map JDict (_scrape_jobs [])) ->
  truthy (scrape_metadata relation) = true ->
  identifier (scrape_metadata relation) = Ok prefix ->
  label_matcher_dict (scrape_metadata relation) = Ok topo ->
  relation_config relation =
    Ok (JList
          [JDict
             [("static_configs",
               JList (map (member_entry topo [] ["80"])
                          (_relation_hosts relation)));
              ("job_name", JStr prefix);
              ("relabel_configs",
               JList [instance_relabel_config
                        (BASE_SOURCE_LABELS ++
                         if nonempty (_relation_hosts relation)
                         then ["juju_unit"] else [])])]]).
Proof.
  intros Hu Hj Hm Hi Htopo.
  rewrite (relation_config_labeled identifier label_matcher_dict py_str
             relation _ prefix Hu Hj) by (try assumption; discriminate).
  cbn [_scrape_jobs nonempty map]. rewrite label_all_cons.
  change (_sanitize_scrape_configuration (JDict DEFAULT_JOB)) with (Ok DEFAULT_JOB).
  cbn [bind].
  rewrite (expand_valid label_matcher_dict py_str DEFAULT_JOB prefix
             (_relation_hosts relation) (scrape_metadata relation)
             [JDict [("targets", JList [JStr "*:80"])]] [] topo);
    try reflexivity; try assumption.
  - cbn [label_jobs bind]. unfold spec_job.
    change (name_suffix py_str DEFAULT_JOB) with "".
    rewrite append_empty_r. cbn [flat_map]. rewrite app_nil_r.
    assert (E : spec_group_entries topo (_relation_hosts relation)
                  (JDict [("targets", JList [JStr "*:80"])])
                = map (member_entry topo [] ["80"]) (_relation_hosts relation)).
    { unfold spec_group_entries.
      change (qualified_targets
                (group_targets (JDict [("targets", JList [JStr "*:80"])])))
        with (@nil json).
      change (wildcard_ports
                (group_targets (JDict [("targets", JList [JStr "*:80"])])))
        with ["80"].
      reflexivity. }
    rewrite E. reflexivity.
  - constructor; [|constructor]. eexists. split; [reflexivity|]. split.
    + left. reflexivity.
    + right. eexists. split; [reflexivity|].
      constructor; [prove_valid_target | constructor].
Qed.

End JobFacts.

Lemma concrete_job_keeps_timing_keys_witness :
  dict_get Fixtures.timed_out "scrape_interval" = Some (JStr "10s") /\
  dict_get Fixtures.timed_out "metrics_path" = None.
Proof.
  split.
  - apply (concrete_job_keeps_timing_keys
             Scenario.label_matcher_dict Scenario.py_str
             Fixtures.timed_job Fixtures.timed_sanitized Fixtures.timed_out
             "p" Scenario.hosts Scenario.metadata "scrape_interval");
      try discriminate; try reflexivity. prove_nodup.
  - apply (concrete_job_keeps_timing_keys
             Scenario.label_matcher_dict Scenario.py_str
             Fixtures.timed_job Fixtures.timed_sanitized Fixtures.timed_out
             "p" Scenario.hosts Scenario.metadata "metrics_path");
      try discriminate; try reflexivity. prove_nodup.
Defined.

Lemma one_job_per_template_witness :
  map job_name_of Fixtures.timed_configs
    = [Some (JStr "p_timed"); Some (JStr "p")].
Proof.
  pose proof (one_job_per_template
                Scenario.label_matcher_dict Scenario.py_str
                [JDict Fixtures.timed_job; JDict Scenario.wildcard_job]
                "p" Scenario.hosts Scenario.metadata Fixtures.timed_configs
                eq_refl) as H.
  inversion H as [|raw1 c1 raws1 cs1 H1 Hrest]; subst.
  inversion Hrest as [|raw2 c2 raws2 cs2 H2 Hnil]; subst.
  reflexivity.
Defined.

Lemma default_job_scrapes_port_80_witness :
  _static_scrape_config Scenario.identifier Scenario.label_matcher_dict
    Scenario.py_str
    (Scenario.publisher [Scenario.unit0] [DEFAULT_JOB] Scenario.metadata)
  = Ok (JList
          [JDict
             [("static_configs",
               JList [JDict
                        [("labels",
                          JDict [("juju_model", JStr "model");
                                 ("juju_model_uuid", JStr "uuid123");
                                 ("juju_application", JStr "app");
                                 ("juju_unit", JStr "app/0")]);
                         ("targets", JList [JStr "10.0.0.5:80"])]]);
              ("job_name", JStr "model_uuid123_app");
              ("relabel_configs",
               JList [instance_relabel_config
                        ["juju_model"; "juju_model_uuid"; "juju_application";
                         "juju_unit"]])]]).
Proof.
  apply (default_job_scrapes_port_80
           Scenario.identifier Scenario.label_matcher_dict Scenario.py_str
           (Scenario.publisher [Scenario.unit0] [DEFAULT_JOB] Scenario.metadata)
           "model_uuid123_app" Scenario.topology).
  - discriminate.
  - reflexivity.
  - reflexivity.
  - reflexivity.
  - reflexivity.
Defined.

(** * Beyond the claims: building the consumer and the provider *)

(** X12: the validation that both constructors start with returns
    exactly when the charm declares the relation, with the expected
    interface, on the expected side, the side being [provides] or
    [requires]; asked for a [peer] relation it always raises.  A relation
    the charm does not declare is reported as not found, whatever else is
    wrong. *)
Theorem validation_accepts_declared_relations
    (meta : Meta.t) (relation_name expected_interface : string)
    (role : RelationRole.t) :
  (_validate_relation_by_interface_and_direction
     meta relation_name expected_interface role = None <->
   exists relation,
     dict_get (Meta.relations meta) relation_name = Some relation /\
     Meta.interface_name relation = expected_interface /\
     ((role = RelationRole.provides /\
       has_key (Meta.provides meta) relation_name = true) \/
      (role = RelationRole.requires /\
       has_key (Meta.requires meta) relation_name = true))) /\
  (dict_get (Meta.relations meta) relation_name = None ->
   _validate_relation_by_interface_and_direction
     meta relation_name expected_interface role
   = Some (RelationNotFoundError relation_name)).
Proof.
  unfold _validate_relation_by_interface_and_direction. split.
  - destruct (dict_get (Meta.relations meta) relation_name) as [rel|].
    + destruct (String.eqb_spec (Meta.interface_name rel) expected_interface)
        as [E|E]; cbn [negb].
      * destruct role; cbn [negb].
        -- split; [discriminate|].
           intros (r & _ & _ & [[H _]|[H _]]); discriminate.
        -- destruct (has_key (Meta.requires meta) relation_name) eqn:K;
             cbn [negb]; split; try discriminate; eauto 8.
           intros (r & _ & _ & [[H _]|[_ H]]); discriminate.
        -- destruct (has_key (Meta.provides meta) relation_name) eqn:K;
             cbn [negb]; split; try discriminate; eauto 8.
           intros (r & _ & _ & [[_ H]|[H _]]); discriminate.
      * split; [discriminate|].
        intros (r & Hr & Hi & _). injection Hr as <-. contradiction.
    + split; [discriminate|]. intros (r & Hr & _). discriminate.
  - now intros ->.
Qed.

Lemma validation_accepts_declared_relations_witness :
  _validate_relation_by_interface_and_direction
    Fixtures.meta "profiling-endpoint" RELATION_INTERFACE_NAME
    RelationRole.provides = None /\
  _validate_relation_by_interface_and_direction
    Fixtures.meta "tracing" RELATION_INTERFACE_NAME RelationRole.provides
  = Some (RelationNotFoundError "tracing").
Proof.
  split.
  - apply (proj1 (validation_accepts_declared_relations
                    Fixtures.meta "profiling-endpoint" RELATION_INTERFACE_NAME
                    RelationRole.provides)).
    eexists. split; [reflexivity|]. split; [reflexivity|].
    left. split; reflexivity.
  - apply (proj2 (validation_accepts_declared_relations
                    Fixtures.meta "tracing" RELATION_INTERFACE_NAME
                    RelationRole.provides)).
    reflexivity.
Defined.

Lemma replace_removes (old new : ascii) (s : string) :
  old <> new -> count_char old (replace old new s) = 0.
Proof.
  intros Hne. induction s as [|c s IH]; simpl; [reflexivity|].
  rewrite IH. destruct (Ascii.eqb_spec c old) as [->|Hc].
  - destruct (Ascii.eqb_spec new old); [congruence | reflexivity].
  - destruct (Ascii.eqb_spec c old); [contradiction | reflexivity].
Qed.

Lemma replace_get (old new : ascii) (s : string) :
  forall i,
    String.get i (replace old new s)
    = option_map (fun c => if Ascii.eqb c old then new else c) (String.get i s).
Proof.
  induction s as [|c s IH]; intros i; [reflexivity|].
  destruct i as [|i]; [reflexivity | exact (IH i)].
Qed.

Lemma default_refresh_event (meta : Meta.t) :
  refresh_events meta NoRefreshEvent <> [] /\
  (forall container,
     In (pebble_ready container) (refresh_events meta NoRefreshEvent) ->
     count_char "-" container = 0 /\
     length (Meta.containers meta) = 1 /\
     ~ In "kubernetes" (Meta.series meta)) /\
  (length (Meta.containers meta) <> 1 \/ In "kubernetes" (Meta.series meta) ->
   refresh_events meta NoRefreshEvent = [update_status]) /\
  (forall key container,
     Meta.containers meta = [(key, container)] ->
     ~ In "kubernetes" (Meta.series meta) ->
     refresh_events meta NoRefreshEvent
     = [pebble_ready (replace "-" "_" (Meta.container_name container))]).
Proof.
  unfold refresh_events.
  destruct (Nat.eqb_spec (length (Meta.containers meta)) 1) as [L|L].
  - destruct (existsb (String.eqb "kubernetes") (Meta.series meta)) eqn:K.
    + split; [discriminate|]. split; [|split; [reflexivity|]].
      * intros c [H|[]]. discriminate.
      * intros key c _ Hn. apply existsb_eqb_In in K. contradiction.
    + destruct (Meta.containers meta) as [|[k c] rest]; [discriminate|].
      split; [discriminate|]. split; [|split].
      * intros c' [H|[]]. injection H as <-.
        split; [apply replace_removes; discriminate|].
        split; [exact L|].
        intros Hin. apply existsb_eqb_In in Hin. congruence.
      * intros [H|H]; [contradiction|].
        apply existsb_eqb_In in H. congruence.
      * intros key c' H _. injection H as _ <- _. reflexivity.
  - split; [discriminate|]. split; [|split; [reflexivity|]].
    + intros c [H|[]]. discriminate.
    + intros key c H. rewrite H in L. contradiction.
Qed.

(** X13: the provider always observes at least one refresh event.  A
    single event or a non-empty list is observed as given; [None] and the
    empty list both give the default, which is [update_status] unless the
    charm has exactly one container and no [kubernetes] series, when it is
    the [pebble_ready] of that one container, under the name of the
    container with each dash replaced by an underscore, character by
    character, and nothing else changed. *)
Theorem provider_observes_a_refresh_event
    (meta : Meta.t) (refresh_event : refresh_argument) :
  refresh_events meta refresh_event <> [] /\
  (forall ev, refresh_events meta (OneRefreshEvent ev) = [ev]) /\
  (forall ev evs,
     refresh_events meta (RefreshEvents (ev :: evs)) = ev :: evs) /\
  refresh_events meta (RefreshEvents []) = refresh_events meta NoRefreshEvent /\
  (forall container,
     In (pebble_ready container) (refresh_events meta NoRefreshEvent) ->
     count_char "-" container = 0 /\
     length (Meta.containers meta) = 1 /\
     ~ In "kubernetes" (Meta.series meta)) /\
  (length (Meta.containers meta) <> 1 \/ In "kubernetes" (Meta.series meta) ->
   refresh_events meta NoRefreshEvent = [update_status]) /\
  (forall key container,
     Meta.containers meta = [(key, container)] ->
     ~ In "kubernetes" (Meta.series meta) ->
     refresh_events meta NoRefreshEvent
     = [pebble_ready (replace "-" "_" (Meta.container_name container))]) /\
  (forall (name : string) (i : nat),
     String.get i (replace "-" "_" name)
     = option_map (fun c => if Ascii.eqb c "-" then "_"%char else c)
         (String.get i name)).
Proof.
  destruct (default_refresh_event meta) as (D1 & D2 & D3 & D4).
  split; [|split; [|split; [|split; [|split; [|split; [|split]]]]]]; auto.
  - destruct refresh_event as [|ev|[|ev evs]]; try exact D1; discriminate.
  - intros name i. apply replace_get.
Qed.

Lemma provider_observes_a_refresh_event_witness :
  refresh_events Fixtures.meta (RefreshEvents []) = [pebble_ready "zinc_db"].
Proof.
  destruct (provider_observes_a_refresh_event Fixtures.meta NoRefreshEvent)
    as (_ & _ & _ & H & _ & _ & D & _).
  rewrite H.
  rewrite (D "zinc-db" {| Meta.container_name := "zinc-db" |} eq_refl).
  - reflexivity.
  - intros [].
Defined.

(** * Beyond the claims: the admin password of the charm *)

Lemma get_in (s : string) :
  forall i, i < String.length s ->
  exists c, String.get i s = Some c /\ In c (list_ascii_of_string s).
Proof.
  induction s as [|c0 s IH]; simpl; intros i Hi; [lia|].
  destruct i as [|i].
  - exists c0. split; [reflexivity | now left].
  - destruct (IH i) as (c & Hc & Hin); [lia|].
    exists c. split; [exact Hc | now right].
Qed.

Lemma choices_from (rand : nat -> nat) (seq : string) :
  0 < String.length seq ->
  forall n k,
    exists s,
      ZincCharm.choices rand seq k n = Some s /\
      String.length s = n /\
      forall c, In c (list_ascii_of_string s) -> In c (list_ascii_of_string seq).
Proof.
  intros Hlen. induction n as [|n IH]; intros k; simpl.
  - exists EmptyString. split; [reflexivity|]. split; [reflexivity|].
    intros c [].
  - unfold ZincCharm.choice.
    destruct (get_in seq (rand k mod String.length seq)) as (c & -> & Hc).
    { apply Nat.mod_upper_bound. lia. }
    destruct (IH (S k)) as (s & -> & L & Hs).
    exists (String c s). split; [reflexivity|]. split; [simpl; now rewrite L|].
    intros c' [<-|Hin]; auto.
Qed.

Lemma generate_password_ok (rand : nat -> nat) (k : nat) :
  exists password,
    ZincCharm._generate_password rand k = Some password /\
    String.length password = 24 /\
    forallb ZincCharm.is_alnum (list_ascii_of_string password) = true.
Proof.
  unfold ZincCharm._generate_password.
  destruct (choices_from rand (ZincCharm.ascii_letters ++ ZincCharm.digits)%string
              ltac:(vm_compute; lia) 24 k) as (s & E & L & Hs).
  exists s. split; [exact E|]. split; [exact L|].
  apply forallb_forall. intros c Hc.
  assert (A : forallb ZincCharm.is_alnum
                (list_ascii_of_string
                   (ZincCharm.ascii_letters ++ ZincCharm.digits)%string) = true)
    by (vm_compute; reflexivity).
  rewrite forallb_forall in A. apply A, Hs, Hc.
Qed.

(** X14: whatever the random source gives, the generated password has 24
    characters, each a letter or a digit. *)
Theorem generated_password_shape (rand : nat -> nat) (k : nat) :
  exists password,
    ZincCharm._generate_password rand k = Some password /\
    String.length password = 24 /\
    forallb ZincCharm.is_alnum (list_ascii_of_string password) = true.
Proof. exact (generate_password_ok rand k). Qed.

Lemma layer_shows_password (label password : string) (combine : bool) :
  ZincCharm.shown_password
    (ZincCharm.add_layer label (ZincCharm._pebble_layer password) combine)
  = Some (JStr password).
Proof. reflexivity. Qed.

Lemma results_show_password (password : string) :
  ZincCharm.shown_password
    (ZincCharm.set_results [("admin-password", password)])
  = Some (JStr password).
Proof. reflexivity. Qed.

Lemma perform_all (returns : nat -> bool) (calls : list ZincCharm.effect) :
  forall made,
    (forall n, n < length calls -> returns (made + n) = true) ->
    ZincCharm.perform returns made calls = (calls, true).
Proof.
  induction calls as [|c calls IH]; intros made H; [reflexivity|].
  cbn [ZincCharm.perform].
  replace (returns made) with true
    by (symmetry; rewrite <- (Nat.add_0_r made); apply H; simpl; lia).
  rewrite IH; [reflexivity|].
  intros n Hn. replace (S made + n) with (made + S n) by lia.
  apply H. simpl. lia.
Qed.

Lemma perform_raise (returns : nat -> bool) (calls : list ZincCharm.effect) :
  forall made n,
    n < length calls ->
    returns (made + n) = false ->
    (forall m, m < n -> returns (made + m) = true) ->
    ZincCharm.perform returns made calls = (firstn (S n) calls, false).
Proof.
  induction calls as [|c calls IH]; intros made n Hn Hf Ht; [simpl in Hn; lia|].
  cbn [ZincCharm.perform]. destruct n as [|n].
  - rewrite Nat.add_0_r in Hf. rewrite Hf. reflexivity.
  - replace (returns made) with true
      by (symmetry; rewrite <- (Nat.add_0_r made); apply Ht; lia).
    rewrite (IH (S made) n).
    + reflexivity.
    + simpl in Hn. lia.
    + replace (S made + n) with (made + S n) by lia. exact Hf.
    + intros m Hm. replace (S made + m) with (made + S m) by lia.
      apply Ht. lia.
Qed.

Lemma handle_with_password (rand : nat -> nat) (returns : nat -> bool)
    (made : nat) (ev : ZincCharm.charm_event) (st : ZincCharm.state) :
  ZincCharm.initial_admin_password st <> "" ->
  ZincCharm.handle rand returns made ev st
  = Some (st,
          ZincCharm.perform returns made
            (ZincCharm.calls_of (ZincCharm.initial_admin_password st) ev)).
Proof.
  intros Hpw.
  assert (E : ZincCharm.ensure_password rand st = Some st).
  { unfold ZincCharm.ensure_password.
    destruct (String.eqb_spec (ZincCharm.initial_admin_password st) "");
      [contradiction | reflexivity]. }
  destruct ev; cbn [ZincCharm.handle];
    unfold ZincCharm._on_zinc_pebble_ready, ZincCharm._on_get_admin_password;
    rewrite E; reflexivity.
Qed.

Lemma handle_initially (rand : nat -> nat) (returns : nat -> bool)
    (made : nat) (ev : ZincCharm.charm_event) (password : string) :
  ZincCharm._generate_password rand 0 = Some password ->
  ZincCharm.handle rand returns made ev ZincCharm.initial_state
  = Some ({| ZincCharm.initial_admin_password := password;
             ZincCharm.draws := 24 |},
          ZincCharm.perform returns made (ZincCharm.calls_of password ev)).
Proof.
  intros G.
  assert (E : ZincCharm.ensure_password rand ZincCharm.initial_state
              = Some {| ZincCharm.initial_admin_password := password;
                        ZincCharm.draws := 24 |}).
  { unfold ZincCharm.ensure_password, ZincCharm.initial_state.
    cbn [ZincCharm.initial_admin_password ZincCharm.draws String.eqb].
    rewrite G. reflexivity. }
  destruct ev; cbn [ZincCharm.handle];
    unfold ZincCharm._on_zinc_pebble_ready, ZincCharm._on_get_admin_password;
    rewrite E; reflexivity.
Qed.

Lemma run_with_password (rand : nat -> nat) (returns : nat -> bool)
    (st : ZincCharm.state) (evs : list ZincCharm.charm_event) :
  ZincCharm.initial_admin_password st <> "" ->
  forall made,
    let calls :=
      flat_map (ZincCharm.calls_of (ZincCharm.initial_admin_password st)) evs in
    ((forall n, n < length calls -> returns (made + n) = true) ->
     ZincCharm.run rand returns evs st made
     = Some (ZincCharm.Completed st calls)) /\
    (forall n,
       n < length calls ->
       returns (made + n) = false ->
       (forall m, m < n -> returns (made + m) = true) ->
       ZincCharm.run rand returns evs st made
       = Some (ZincCharm.Failed (firstn (S n) calls))).
Proof.
  intros Hpw. induction evs as [|ev evs IH]; intros made; cbn zeta.
  - split; [reflexivity|]. intros n Hn. simpl in Hn. lia.
  - cbn [flat_map ZincCharm.run]. rewrite (handle_with_password _ _ _ _ _ Hpw).
    set (now := ZincCharm.calls_of (ZincCharm.initial_admin_password st) ev).
    set (later :=
           flat_map (ZincCharm.calls_of (ZincCharm.initial_admin_password st))
             evs) in *.
    rewrite length_app. split.
    + intros H. rewrite perform_all by (intros n Hn; apply H; lia).
      destruct (IH (made + length now)) as (IH1 & _). rewrite IH1; [reflexivity|].
      intros n Hn. rewrite <- Nat.add_assoc. apply H. lia.
    + intros n Hn Hf Ht.
      destruct (Nat.lt_ge_cases n (length now)) as [Hlt|Hge].
      * rewrite (perform_raise returns now made n Hlt Hf Ht).
        rewrite firstn_app.
        replace (S n - length now) with 0 by lia.
        cbn [firstn]. now rewrite app_nil_r.
      * rewrite perform_all by (intros m Hm; apply Ht; lia).
        destruct (IH (made + length now)) as (_ & IH2).
        rewrite (IH2 (n - length now)).
        -- rewrite firstn_app.
           rewrite (firstn_all2 now) by lia.
           replace (S n - length now) with (S (n - length now)) by lia.
           reflexivity.
        -- lia.
        -- rewrite <- Nat.add_assoc.
           replace (length now + (n - length now)) with n by lia. exact Hf.
        -- intros m Hm. rewrite <- Nat.add_assoc. apply Ht. lia.
Qed.

Lemma run_initially (rand : nat -> nat) (returns : nat -> bool)
    (evs : list ZincCharm.charm_event) (password : string) :
  ZincCharm._generate_password rand 0 = Some password ->
  password <> "" ->
  ZincCharm.run rand returns evs ZincCharm.initial_state 0
  = match evs with
    | [] => Some (ZincCharm.Completed ZincCharm.initial_state [])
    | _ =>
        ZincCharm.run rand returns evs
          {| ZincCharm.initial_admin_password := password;
             ZincCharm.draws := 24 |} 0
    end.
Proof.
  intros G Hpw. destruct evs as [|ev evs]; [reflexivity|].
  cbn [ZincCharm.run]. rewrite (handle_initially _ _ _ _ _ G).
  rewrite handle_with_password by exact Hpw. reflexivity.
Qed.

Lemma first_raise (returns : nat -> bool) (bound : nat) :
  (forall n, n < bound -> returns n = true) \/
  (exists n, n < bound /\ returns n = false /\
             forall m, m < n -> returns m = true).
Proof.
  induction bound as [|bound [IH|(n & Hn & Hf & Ht)]].
  - left. intros n Hn. lia.
  - destruct (returns bound) eqn:E.
    + left. intros n Hn. destruct (Nat.eq_dec n bound) as [->|]; [exact E|].
      apply IH. lia.
    + right. exists bound. split; [lia|]. split; [exact E|].
      intros m Hm. now apply IH.
  - right. exists n. split; [lia|]. split; assumption.
Qed.

(** X15: the admin password is generated once.  Take any sequence of
    pebble-ready events and get-admin-password actions, starting with no
    password stored, and any behaviour of Pebble and of the framework,
    whose calls return or raise.  The password is the one the first
    handler generates from the first 24 uses of the random source.  When
    every call returns, the calls made are exactly, event after event: for
    a pebble-ready event, the layer [zinc] built from that password, added
    with [combine], then the autostart and the active status; for the
    action, the results with that password under [admin-password]; and the
    stored state ends with that password and 24 uses of the random source,
    however many handlers ran.  When a call raises, the calls made are
    that same sequence up to the call that raised.  The layer and the
    results show that password. *)
Theorem admin_password_is_stable
    (rand : nat -> nat) (returns : nat -> bool)
    (evs : list ZincCharm.charm_event) :
  exists password,
    ZincCharm._generate_password rand 0 = Some password /\
    ZincCharm.shown_password
      (ZincCharm.add_layer "zinc" (ZincCharm._pebble_layer password) true)
    = Some (JStr password) /\
    ZincCharm.shown_password
      (ZincCharm.set_results [("admin-password", password)])
    = Some (JStr password) /\
    let calls :=
      flat_map
        (fun ev =>
           match ev with
           | ZincCharm.zinc_pebble_ready =>
               [ZincCharm.add_layer "zinc" (ZincCharm._pebble_layer password) true;
                ZincCharm.autostart;
                ZincCharm.set_status_active]
           | ZincCharm.get_admin_password_action =>
               [ZincCharm.set_results [("admin-password", password)]]
           end) evs in
    ((forall n, n < length calls -> returns n = true) ->
     ZincCharm.run rand returns evs ZincCharm.initial_state 0
     = Some (ZincCharm.Completed
               (if nonempty evs
                then {| ZincCharm.initial_admin_password := password;
                        ZincCharm.draws := 24 |}
                else ZincCharm.initial_state)
               calls)) /\
    (forall n,
       n < length calls ->
       returns n = false ->
       (forall m, m < n -> returns m = true) ->
       ZincCharm.run rand returns evs ZincCharm.initial_state 0
       = Some (ZincCharm.Failed (firstn (S n) calls))) /\
    (exists result,
       ZincCharm.run rand returns evs ZincCharm.initial_state 0 = Some result /\
       forall call shown,
         In call
           match result with
           | ZincCharm.Completed _ calls_made => calls_made
           | ZincCharm.Failed calls_made => calls_made
           end ->
         ZincCharm.shown_password call = Some shown ->
         shown = JStr password).
Proof.
  destruct (generate_password_ok rand 0) as (pw & G & L & _).
  assert (Hpw : pw <> "") by (intros ->; discriminate).
  exists pw. split; [exact G|].
  split; [apply layer_shows_password|]. split; [apply results_show_password|].
  change (fun ev : ZincCharm.charm_event => match ev with
          | ZincCharm.zinc_pebble_ready => _
          | ZincCharm.get_admin_password_action => _ end)
    with (ZincCharm.calls_of pw).
  cbn zeta. set (calls := flat_map (ZincCharm.calls_of pw) evs).
  set (st1 := {| ZincCharm.initial_admin_password := pw;
                 ZincCharm.draws := 24 |}).
  assert (Hpw1 : ZincCharm.initial_admin_password st1 <> "") by exact Hpw.
  destruct (run_with_password rand returns st1 evs Hpw1 0) as (R1 & R2).
  cbn [ZincCharm.initial_admin_password st1] in R1, R2. fold calls in R1, R2.
  assert (C1 : (forall n, n < length calls -> returns n = true) ->
               ZincCharm.run rand returns evs ZincCharm.initial_state 0
               = Some (ZincCharm.Completed
                         (if nonempty evs then st1 else ZincCharm.initial_state)
                         calls)).
  { intros H. rewrite (run_initially rand returns evs pw G Hpw).
    destruct evs as [|ev evs]; [reflexivity|]. exact (R1 H). }
  assert (C2 : forall n,
               n < length calls -> returns n = false ->
               (forall m, m < n -> returns m = true) ->
               ZincCharm.run rand returns evs ZincCharm.initial_state 0
               = Some (ZincCharm.Failed (firstn (S n) calls))).
  { intros n Hn Hf Ht. rewrite (run_initially rand returns evs pw G Hpw).
    destruct evs as [|ev evs]; [simpl in Hn; lia|]. exact (R2 n Hn Hf Ht). }
  assert (Sh : forall call shown,
              In call calls -> ZincCharm.shown_password call = Some shown ->
              shown = JStr pw).
  { unfold calls. intros call shown Hin Hs. apply in_flat_map in Hin.
    destruct Hin as (ev & _ & Hin). destruct ev.
    - destruct Hin as [<-|[<-|[<-|[]]]]; try discriminate.
      rewrite layer_shows_password in Hs. congruence.
    - destruct Hin as [<-|[]]. rewrite results_show_password in Hs. congruence. }
  split; [exact C1|]. split; [exact C2|].
  destruct (first_raise returns (length calls)) as [H|(n & Hn & Hf & Ht)].
  - eexists. split; [exact (C1 H)|]. exact Sh.
  - eexists. split; [exact (C2 n Hn Hf Ht)|].
    intros call shown Hin. apply Sh.
    rewrite <- (firstn_skipn (S n) calls). apply in_or_app. now left.
Qed.

(** Three events, the fourth call raising. *)
Lemma admin_password_is_stable_witness :
  ZincCharm.run (fun _ => 0) (fun n => negb (Nat.eqb n 3))
    [ZincCharm.zinc_pebble_ready; ZincCharm.get_admin_password_action;
     ZincCharm.zinc_pebble_ready]
    ZincCharm.initial_state 0
  = Some (ZincCharm.Failed
            [ZincCharm.add_layer "zinc"
               (ZincCharm._pebble_layer "aaaaaaaaaaaaaaaaaaaaaaaa") true;
             ZincCharm.autostart;
             ZincCharm.set_status_active;
             ZincCharm.set_results
               [("admin-password", "aaaaaaaaaaaaaaaaaaaaaaaa")]]).
Proof.
  destruct (admin_password_is_stable (fun _ => 0) (fun n => negb (Nat.eqb n 3))
              [ZincCharm.zinc_pebble_ready; ZincCharm.get_admin_password_action;
               ZincCharm.zinc_pebble_ready])
    as (pw & G & _ & _ & _ & F & _).
  vm_compute in G. injection G as G. subst pw.
  apply (F 3).
  - simpl. lia.
  - reflexivity.
  - intros [|[|[|m]]] Hm; try reflexivity. lia.
Defined.

(** * Beyond the claims: when the aggregation raises *)

Lemma split_host_port_cases (t : json) :
  valid_target t \/ exists e, split_host_port t = Raise e.
Proof.
  destruct t as [| | |s| |]; try (right; eexists; reflexivity).
  destruct (Nat.eq_dec (count_char ":" s) 1) as [E|E].
  - left. exists s. auto.
  - right. exists ValueError. now apply split_host_port_other.
Qed.

Section RaiseFacts.
Variable identifier : json -> result string.
Variable label_matcher_dict : json -> result (dict json).
Variable py_str : json -> string.

Local Abbreviation unit_config := (_labeled_unit_config label_matcher_dict).
Local Abbreviation unitless_config := (_labeled_unitless_config label_matcher_dict).
Local Abbreviation members_loop := (hosts_loop label_matcher_dict).
Local Abbreviation group_step := (static_config_step label_matcher_dict).
Local Abbreviation groups_loop := (static_configs_loop label_matcher_dict).
Local Abbreviation expand := (_labeled_static_job_config label_matcher_dict py_str).
Local Abbreviation label_all := (label_jobs label_matcher_dict py_str).
Local Abbreviation relation_config :=
  (_static_scrape_config identifier label_matcher_dict py_str).
Local Abbreviation aggregate := (jobs identifier label_matcher_dict py_str).

Lemma unsplittable_target_aborts
    relations relation raw_jobs raw sanitized groups sc targets t e0 :
  In relation relations ->
  units relation <> [] ->
  truthy (scrape_metadata relation) = true ->
  scrape_jobs relation = JList raw_jobs ->
  In raw raw_jobs ->
  _sanitize_scrape_configuration raw = Ok sanitized ->
  dict_get sanitized "static_configs" = Some (JList groups) ->
  In (JDict sc) groups ->
  dict_get sc "targets" = Some (JList targets) ->
  In t targets ->
  split_host_port t = Raise e0 ->
  exists e, aggregate relations = Raise e.
Proof.
  intros Hrel Hu Hm Hj Hraw Hsan Hsc Hg Ht Hin Hsplit.
  assert (Hne : raw_jobs <> []) by (intros ->; contradiction).
  destruct (identifier (scrape_metadata relation)) as [prefix|e] eqn:Hi.
  - destruct (label_all_raises label_matcher_dict py_str
                raw_jobs raw prefix (_relation_hosts relation)
                (scrape_metadata relation) Hraw) as (e & He).
    { intros san Hsan'. rewrite Hsan in Hsan'. injection Hsan' as <-.
      eapply expand_raises; eauto. }
    apply (aggregate_raises identifier label_matcher_dict py_str
             relations relation e Hrel).
    rewrite (relation_config_labeled identifier label_matcher_dict py_str
               _ _ _ Hu Hj Hne Hm Hi), He.
    reflexivity.
  - apply (aggregate_raises identifier label_matcher_dict py_str
             relations relation e Hrel).
    unfold _static_scrape_config. rewrite Hj, Hm, Hi.
    destruct (units relation); [contradiction|].
    destruct raw_jobs; [contradiction | reflexivity].
Qed.

(** X16: an aggregation that returns has checked every target it could
    reach: in every relation with units and metadata, every element of
    every target list of every sanitized template is a string with exactly
    one colon.  One element of another kind, a number or a string with no
    colon or several, in any template of any such relation, and the
    aggregation raises. *)
Theorem aggregation_result_means_valid_targets
    relations out relation raw_jobs raw sanitized groups sc targets t :
  aggregate relations = Ok out ->
  In relation relations ->
  units relation <> [] ->
  truthy (scrape_metadata relation) = true ->
  scrape_jobs relation = JList raw_jobs ->
  In raw raw_jobs ->
  _sanitize_scrape_configuration raw = Ok sanitized ->
  dict_get sanitized "static_configs" = Some (JList groups) ->
  In (JDict sc) groups ->
  dict_get sc "targets" = Some (JList targets) ->
  In t targets ->
  valid_target t.
Proof.
  intros Hout Hrel Hu Hm Hj Hraw Hsan Hsc Hg Ht Hin.
  destruct (split_host_port_cases t) as [Hv|(e0 & He0)]; [exact Hv|].
  destruct (unsplittable_target_aborts
              relations relation raw_jobs raw sanitized groups sc targets t e0)
    as (e & He); try assumption.
  congruence.
Qed.

(** X17: a publisher whose metadata cannot be read stops the whole
    aggregation: when the identifier of the topology raises for a relation
    that has units and templates, [jobs] raises, whatever the other
    relations hold. *)
Theorem unreadable_metadata_aborts_aggregation relations relation e0 :
  In relation relations ->
  units relation <> [] ->
  truthy (scrape_jobs relation) = true ->
  truthy (scrape_metadata relation) = true ->
  identifier (scrape_metadata relation) = Raise e0 ->
  exists e, aggregate relations = Raise e.
Proof.
  intros Hrel Hu Hj Hm Hi.
  apply (aggregate_raises identifier label_matcher_dict py_str
           relations relation e0 Hrel).
  unfold _static_scrape_config. rewrite Hj, Hm, Hi.
  destruct (units relation); [contradiction | reflexivity].
Qed.

(** ** Members come and go *)

Lemma set_labels_inv labels md jl :
  _set_juju_labels label_matcher_dict labels md = Ok jl ->
  exists ul topo, labels = JDict ul /\ label_matcher_dict md = Ok topo.
Proof.
  unfold _set_juju_labels. destruct labels; try discriminate.
  destruct (label_matcher_dict md) as [topo|] eqn:E; [|discriminate].
  eauto.
Qed.

Lemma members_loop_needs_labels hosts ports labels md st st' :
  hosts <> [] ->
  members_loop hosts ports labels md st = Ok st' ->
  exists ul topo, labels = JDict ul /\ label_matcher_dict md = Ok topo.
Proof.
  destruct hosts as [|[n a] hosts]; [contradiction|]. intros _.
  rewrite (members_loop_cons label_matcher_dict).
  unfold _labeled_unit_config.
  destruct (_set_juju_labels label_matcher_dict labels md) as [jl|] eqn:E;
    [|discriminate].
  intros _. exact (set_labels_inv _ _ _ E).
Qed.

Lemma group_step_any_hosts scs hosts md g st st' :
  hosts <> [] ->
  group_step scs hosts md g st = Ok st' ->
  forall hosts' st2, exists st2', group_step scs hosts' md g st2 = Ok st2'.
Proof.
  intros Hne. unfold static_config_step.
  destruct g as [| | | | |sc]; try discriminate.
  set (labels := if truthy scs then _ else _).
  destruct (py_iter _) as [ts|]; [|discriminate]. cbn [bind].
  destruct (partition_targets ts [] []) as [[ports unitless]|]; [|discriminate].
  cbn [bind]. intros H hosts' st2.
  assert (L : exists ul topo,
             labels = JDict ul /\ label_matcher_dict md = Ok topo).
  { destruct (nonempty unitless).
    - destruct (unitless_config unitless labels md); [|discriminate].
      cbn [bind] in H. eapply members_loop_needs_labels; eauto.
    - cbn [bind] in H. eapply members_loop_needs_labels; eauto. }
  destruct L as (ul & topo & -> & Htopo).
  destruct (nonempty unitless).
  - rewrite (unitless_config_valid label_matcher_dict _ _ _ _ Htopo).
    cbn [bind].
    rewrite (members_loop_valid label_matcher_dict _ _ _ _ _ Htopo). eauto.
  - cbn [bind].
    rewrite (members_loop_valid label_matcher_dict _ _ _ _ _ Htopo). eauto.
Qed.

Lemma groups_loop_any_hosts scs hosts md items :
  hosts <> [] ->
  forall st st',
    groups_loop scs hosts md items st = Ok st' ->
    forall hosts' st2, exists st2', groups_loop scs hosts' md items st2 = Ok st2'.
Proof.
  intros Hne. induction items as [|g items IH]; intros st st' H hosts' st2.
  - simpl. eauto.
  - rewrite (groups_loop_cons label_matcher_dict) in *.
    destruct (group_step scs hosts md g st) as [st1|] eqn:S; [|discriminate].
    cbn [bind] in H.
    destruct (group_step_any_hosts _ _ _ _ _ _ Hne S hosts' st2) as (st3 & ->).
    cbn [bind]. eapply IH; eauto.
Qed.

(** X18: members joining or leaving cannot break a template.  A template
    that expands with some non-empty membership and some metadata expands
    with every membership, the empty one included, under the same
    metadata; the name of the job does not depend on the membership. *)
Theorem expansion_survives_member_churn job prefix hosts md out :
  hosts <> [] ->
  expand job prefix hosts md = Ok out ->
  forall hosts',
    exists out',
      expand job prefix hosts' md = Ok out' /\
      dict_get out' "job_name" = dict_get out "job_name".
Proof.
  intros Hne H hosts'.
  assert (Hname : dict_get out "job_name" =
                  Some (JStr (resolved_job_name py_str job prefix))).
  { apply (expand_inv label_matcher_dict py_str) in H
      as (entries & rules & _ & ->).
    rewrite !dict_get_set_neq by discriminate. apply dict_get_set_eq. }
  revert H. unfold _labeled_static_job_config.
  destruct (py_iter _) as [items|]; [|discriminate]. cbn [bind].
  destruct (groups_loop _ hosts md items _) as [[entries sl]|] eqn:L;
    [|discriminate].
  cbn [bind].
  destruct (append_relabel job _) as [rc|] eqn:R; [|discriminate].
  intros _.
  destruct (groups_loop_any_hosts _ _ _ _ Hne _ _ L hosts'
              ([], BASE_SOURCE_LABELS)) as ([entries' sl'] & ->).
  cbn [bind].
  apply append_relabel_inv in R as (rules & Hr & _).
  rewrite (append_relabel_existing _ _ _ Hr). cbn [bind].
  eexists. split; [reflexivity|].
  rewrite Hname, !dict_get_set_neq by discriminate. apply dict_get_set_eq.
Qed.

End RaiseFacts.

Lemma aggregation_result_means_valid_targets_witness :
  valid_target (JStr "*:8000").
Proof.
  eapply (aggregation_result_means_valid_targets
            Scenario.identifier Scenario.label_matcher_dict Scenario.py_str
            Scenario.fleet _
            (Scenario.publisher [Scenario.unit0; Scenario.unit1]
               [Scenario.mixed_job; Scenario.named_job "first"]
               Scenario.metadata)
            _ (JDict Scenario.mixed_job) Scenario.mixed_job _
            [("targets", JList [JStr "10.1.32.215:7000"; JStr "*:8000"]);
             ("labels", JDict [("some-key", JStr "some-value")])]
            _ (JStr "*:8000")).
  - reflexivity.
  - right. left. reflexivity.
  - discriminate.
  - reflexivity.
  - reflexivity.
  - left. reflexivity.
  - reflexivity.
  - reflexivity.
  - left. reflexivity.
  - reflexivity.
  - right. left. reflexivity.
Defined.

Lemma unreadable_metadata_aborts_aggregation_witness :
  exists e,
    Scenario.aggregate
      [Scenario.publisher [Scenario.unit0] [Scenario.wildcard_job]
         Scenario.metadata;
       Scenario.publisher [Scenario.unit1] [Scenario.wildcard_job]
         (JDict [("model", JStr "model")])]
    = Raise e.
Proof.
  apply (unreadable_metadata_aborts_aggregation
           Scenario.identifier Scenario.label_matcher_dict Scenario.py_str
           _ (Scenario.publisher [Scenario.unit1] [Scenario.wildcard_job]
                (JDict [("model", JStr "model")])) KeyError).
  - right. left. reflexivity.
  - discriminate.
  - reflexivity.
  - reflexivity.
  - reflexivity.
Defined.

Lemma expansion_survives_member_churn_witness :
  exists out',
    Scenario.expand Scenario.with_rules_job "p" [] Scenario.metadata = Ok out' /\
    dict_get out' "job_name" = dict_get Scenario.with_rules_out "job_name".
Proof.
  apply (expansion_survives_member_churn
           Scenario.label_matcher_dict Scenario.py_str
           Scenario.with_rules_job "p" Scenario.hosts Scenario.metadata
           Scenario.with_rules_out).
  - discriminate.
  - reflexivity.
Defined.

(** * The order of the units *)

Lemma dict_set_same {V : Type} (d : dict V) (k : string) (v : V) :
  dict_get d k = Some v -> dict_set d k v = d.
Proof.
  induction d as [|[k0 v0] d IH]; simpl; [discriminate|].
  destruct (String.eqb_spec k0 k) as [->|_].
  - intros H. injection H as ->. reflexivity.
  - intros H. now rewrite IH.
Qed.

Lemma dict_set_twice {V : Type} (d : dict V) (k : string) (v v' : V) :
  dict_set (dict_set d k v) k v' = dict_set d k v'.
Proof.
  induction d as [|[k0 v0] d IH]; simpl.
  - now rewrite String.eqb_refl.
  - destruct (String.eqb k0 k) eqn:E; simpl; rewrite E; [reflexivity|].
    now rewrite IH.
Qed.

Lemma dict_set_comm {V : Type} (d : dict V) (k1 k2 : string) (v1 v2 : V) :
  k1 <> k2 ->
  In k1 (dict_keys d) ->
  dict_set (dict_set d k2 v2) k1 v1 = dict_set (dict_set d k1 v1) k2 v2.
Proof.
  intros Hne. induction d as [|[k0 v0] d IH]; simpl; [contradiction|].
  intros Hin.
  destruct (String.eqb k0 k2) eqn:E2; destruct (String.eqb k0 k1) eqn:E1;
    simpl; rewrite ?E1, ?E2; try reflexivity.
  - apply String.eqb_eq in E1, E2. congruence.
  - f_equal. apply IH. destruct Hin as [H|H]; [|exact H].
    apply String.eqb_neq in E1. congruence.
Qed.

Lemma existsb_false_forallb {A : Type} (p : A -> bool) (l : list A) :
  existsb p l = false -> forallb (fun x => negb (p x)) l = true.
Proof.
  induction l as [|x l IH]; simpl; [reflexivity|].
  intros H. apply orb_false_elim in H as [-> H]. now rewrite IH.
Qed.

(** Units with distinct resolved names: the hosts are what the units
    give, in the order of the units. *)
Lemma hosts_of_distinct_units (us : list Unit) :
  forall h,
    NoDup (dict_keys h ++ dict_keys (unit_hosts us)) ->
    fold_left hosts_step us h = h ++ unit_hosts us.
Proof.
  induction us as [|u us IH]; intros h Hnd; cbn [fold_left].
  - unfold unit_hosts. simpl. now rewrite app_nil_r.
  - unfold unit_hosts in *. cbn [flat_map] in *. unfold hosts_step at 2.
    destruct (unit_host u) as [[n a]|]; cbn [app] in *.
    + assert (Hk : ~ In n (dict_keys h)).
      { unfold dict_keys in Hnd. cbn [map fst] in Hnd.
        apply NoDup_remove_2 in Hnd. intros Hin.
        apply Hnd, in_or_app. now left. }
      rewrite (dict_set_fresh h n a Hk), IH.
      * now rewrite <- app_assoc.
      * unfold dict_keys in *. rewrite map_app, <- app_assoc. exact Hnd.
    + now apply IH.
Qed.

Lemma relation_hosts_distinct (r : Relation) :
  NoDup (dict_keys (unit_hosts (units r))) ->
  _relation_hosts r = unit_hosts (units r).
Proof.
  intros H. rewrite relation_hosts_fold.
  exact (hosts_of_distinct_units (units r) [] H).
Qed.

Lemma unit_hosts_permutation (us us' : list Unit) :
  Permutation us us' -> Permutation (unit_hosts us) (unit_hosts us').
Proof. intros H. unfold unit_hosts. now apply Permutation_flat_map. Qed.

Lemma unit_hosts_nodup (us us' : list Unit) :
  Permutation us us' ->
  NoDup (dict_keys (unit_hosts us)) -> NoDup (dict_keys (unit_hosts us')).
Proof.
  intros P. apply Permutation_NoDup. unfold dict_keys.
  apply Permutation_map. now apply unit_hosts_permutation.
Qed.

Lemma same_snapshot_sym (r r' : Relation) :
  same_snapshot r r' -> same_snapshot r' r.
Proof.
  intros (P & J & M). split; [now apply Permutation_sym|]. split; congruence.
Qed.

Lemma entries_of_parts_permutation (parts : list group_part)
    (hosts hosts' : dict string) :
  Permutation hosts hosts' ->
  Permutation (entries_of_parts parts hosts) (entries_of_parts parts hosts').
Proof.
  intros P. unfold entries_of_parts.
  induction parts as [|p parts IH]; simpl; [constructor|].
  apply Permutation_app; [|exact IH].
  apply Permutation_app_head. now apply Permutation_map.
Qed.

Lemma entries_of_parts_fixed (parts : list group_part) (hosts : dict string) :
  Forall part_ok parts ->
  filter (fun e => negb (is_member_entry e)) (entries_of_parts parts hosts)
  = flat_map fst parts.
Proof.
  unfold entries_of_parts.
  induction 1 as [|p parts [Hq Hf] _ IH]; simpl; [reflexivity|].
  rewrite !filter_app, IH. f_equal.
  assert (E : filter (fun e => negb (is_member_entry e)) (map (snd p) hosts) = []).
  { clear IH. induction hosts as [|m ms IHm]; simpl; [reflexivity|].
    rewrite Hf. exact IHm. }
  rewrite E, app_nil_r. apply filter_all.
  intros e He. rewrite forallb_forall in Hq. now apply Hq.
Qed.

Section OrderFacts.
Variable identifier : json -> result string.
Variable label_matcher_dict : json -> result (dict json).
Variable py_str : json -> string.

Local Abbreviation unit_config := (_labeled_unit_config label_matcher_dict).
Local Abbreviation unitless_config := (_labeled_unitless_config label_matcher_dict).
Local Abbreviation members_loop := (hosts_loop label_matcher_dict).
Local Abbreviation group_step := (static_config_step label_matcher_dict).
Local Abbreviation groups_loop := (static_configs_loop label_matcher_dict).
Local Abbreviation expand := (_labeled_static_job_config label_matcher_dict py_str).
Local Abbreviation label_all := (label_jobs label_matcher_dict py_str).
Local Abbreviation relation_config :=
  (_static_scrape_config identifier label_matcher_dict py_str).
Local Abbreviation aggregate_from := (jobs_loop identifier label_matcher_dict py_str).
Local Abbreviation aggregate := (jobs identifier label_matcher_dict py_str).

(** A group that goes through with some members goes through with any
    members, and gives the same entries but for the members. *)
Lemma group_step_shape scs hosts md g st st' :
  hosts <> [] ->
  group_step scs hosts md g st = Ok st' ->
  exists p : group_part,
    part_ok p /\
    forall hs st2,
      group_step scs hs md g st2 =
        Ok (fst st2 ++ fst p ++ map (snd p) hs,
            if nonempty hs then add_juju_unit (snd st2) else snd st2).
Proof.
  intros Hne. unfold static_config_step.
  destruct g as [| | | | |sc]; try discriminate.
  set (labels := if truthy scs then _ else _).
  destruct (py_iter _) as [ts|]; [|discriminate]. cbn [bind].
  destruct (partition_targets ts [] []) as [[ports unitless]|]; [|discriminate].
  cbn [bind]. intros H.
  assert (L : exists ul topo,
             labels = JDict ul /\ label_matcher_dict md = Ok topo).
  { destruct (nonempty unitless).
    - destruct (unitless_config unitless labels md); [|discriminate].
      cbn [bind] in H.
      eapply (members_loop_needs_labels label_matcher_dict); eauto.
    - cbn [bind] in H.
      eapply (members_loop_needs_labels label_matcher_dict); eauto. }
  destruct L as (ul & topo & -> & Htopo).
  exists (if nonempty unitless then [qualified_entry topo ul unitless] else [],
          member_entry topo ul ports).
  split.
  { split; [destruct (nonempty unitless); reflexivity | reflexivity]. }
  intros hs st2. cbn [fst snd]. destruct (nonempty unitless).
  - rewrite (unitless_config_valid label_matcher_dict _ _ _ _ Htopo).
    cbn [bind].
    rewrite (members_loop_valid label_matcher_dict _ _ _ _ _ Htopo).
    cbn [fst snd]. now rewrite <- app_assoc.
  - cbn [bind].
    rewrite (members_loop_valid label_matcher_dict _ _ _ _ _ Htopo).
    reflexivity.
Qed.

Lemma groups_loop_shape scs hosts md items :
  hosts <> [] ->
  forall st st',
    groups_loop scs hosts md items st = Ok st' ->
    exists parts,
      Forall part_ok parts /\
      forall hs st2,
        groups_loop scs hs md items st2 =
          Ok (fst st2 ++ entries_of_parts parts hs,
              if nonempty items && nonempty hs
              then add_juju_unit (snd st2) else snd st2).
Proof.
  intros Hne. induction items as [|g items IH]; intros st st' H.
  - exists []. split; [constructor|]. intros hs [es sl].
    cbn [static_configs_loop entries_of_parts flat_map fst snd nonempty andb].
    now rewrite app_nil_r.
  - rewrite (groups_loop_cons label_matcher_dict) in H.
    destruct (group_step scs hosts md g st) as [st1|] eqn:S; [|discriminate].
    cbn [bind] in H.
    destruct (group_step_shape _ _ _ _ _ _ Hne S) as (p & Hp & Hstep).
    destruct (IH _ _ H) as (parts & Hparts & Hloop).
    exists (p :: parts). split; [now constructor|].
    intros hs st2. rewrite (groups_loop_cons label_matcher_dict), Hstep.
    cbn [bind]. rewrite Hloop. cbn [fst snd nonempty andb].
    unfold entries_of_parts. cbn [flat_map]. rewrite <- !app_assoc.
    destruct (nonempty hs), (nonempty items); cbn [andb];
      rewrite ?add_juju_unit_idem; reflexivity.
Qed.

Lemma expand_shape job prefix hosts md out :
  hosts <> [] ->
  expand job prefix hosts md = Ok out ->
  exists parts rules (some_group : bool),
    Forall part_ok parts /\
    forall hs,
      expand job prefix hs md =
        Ok (dict_set
              (dict_set
                 (dict_set job "job_name"
                    (JStr (resolved_job_name py_str job prefix)))
                 "static_configs" (JList (entries_of_parts parts hs)))
              "relabel_configs"
              (JList (rules ++
                      [instance_relabel_config
                         (if some_group && nonempty hs
                          then add_juju_unit BASE_SOURCE_LABELS
                          else BASE_SOURCE_LABELS)]))).
Proof.
  intros Hne. unfold _labeled_static_job_config.
  destruct (py_iter _) as [items|]; [|discriminate]. cbn [bind].
  destruct (groups_loop _ hosts md items _) as [[entries sl]|] eqn:L;
    [|discriminate].
  cbn [bind].
  destruct (append_relabel job _) as [rc|] eqn:R; [|discriminate].
  intros _.
  destruct (groups_loop_shape _ _ _ _ Hne _ _ L) as (parts & Hparts & Hloop).
  apply append_relabel_inv in R as (rules & Hr & _).
  exists parts, rules, (nonempty items). split; [exact Hparts|].
  intros hs. rewrite Hloop. cbn [bind fst snd app].
  rewrite (append_relabel_existing _ _ _ Hr). reflexivity.
Qed.

Lemma expand_without_members job prefix md out :
  expand job prefix [] md = Ok out ->
  exists entries,
    dict_get out "static_configs" = Some (JList entries) /\
    forallb (fun e => negb (is_member_entry e)) entries = true.
Proof.
  unfold _labeled_static_job_config.
  destruct (py_iter _) as [items|]; [|discriminate]. cbn [bind].
  destruct (groups_loop _ [] md items _) as [[entries sl]|] eqn:L;
    [|discriminate].
  cbn [bind].
  destruct (append_relabel job _) as [rc|]; [|discriminate].
  cbn [bind]. intros H. injection H as <-.
  apply (groups_loop_inv label_matcher_dict) in L as (new & L1 & L2 & _).
  cbn [fst app] in L1. subst new. exists entries. split.
  - rewrite dict_get_set_neq by discriminate. apply dict_get_set_eq.
  - apply existsb_false_forallb. rewrite L2. cbn [nonempty].
    apply andb_false_r.
Qed.

(** The expansion under two orders of the same members. *)
Lemma expand_same_up_to_order job prefix hosts hosts' md out :
  Permutation hosts hosts' ->
  expand job prefix hosts md = Ok out ->
  exists entries entries',
    dict_get out "static_configs" = Some (JList entries) /\
    expand job prefix hosts' md =
      Ok (dict_set out "static_configs" (JList entries')) /\
    same_entries_up_to_member_order entries entries'.
Proof.
  intros P H. destruct hosts as [|h hosts].
  - apply Permutation_nil in P. subst hosts'.
    destruct (expand_without_members _ _ _ _ H) as (entries & Hsc & Hno).
    exists entries, entries. split; [exact Hsc|]. split.
    + now rewrite (dict_set_same _ _ _ Hsc).
    + exists [(entries, fun _ => JDict [("labels", JNull)])], [], [].
      split; [constructor|]. split.
      * constructor; [|constructor]. split; [exact Hno | reflexivity].
      * unfold entries_of_parts. simpl. now rewrite !app_nil_r.
  - assert (Hne : h :: hosts <> []) by discriminate.
    destruct (expand_shape _ _ _ _ _ Hne H)
      as (parts & rules & some & Hparts & Hall).
    rewrite Hall in H. injection H as <-.
    exists (entries_of_parts parts (h :: hosts)), (entries_of_parts parts hosts').
    split; [|split].
    + rewrite dict_get_set_neq by discriminate. apply dict_get_set_eq.
    + rewrite Hall.
      rewrite <- (nonempty_length (h :: hosts) hosts' (Permutation_length P)).
      apply f_equal. symmetry.
      rewrite (dict_set_comm _ "static_configs" "relabel_configs").
      * now rewrite dict_set_twice.
      * discriminate.
      * apply dict_keys_set. now left.
    + exists parts, (h :: hosts), hosts'. auto.
Qed.

Lemma same_job_refl (acc : list json) :
  Forall2 same_job_up_to_member_order acc acc.
Proof. induction acc; constructor; [now left | assumption]. Qed.

Lemma label_all_same raws prefix hosts hosts' md :
  Permutation hosts hosts' ->
  forall configs,
    label_all raws prefix hosts md = Ok configs ->
    exists configs',
      label_all raws prefix hosts' md = Ok configs' /\
      Forall2 same_job_up_to_member_order configs configs'.
Proof.
  intros P. induction raws as [|raw raws IH]; intros configs.
  - intros H. injection H as <-. exists []. split; [reflexivity | constructor].
  - rewrite !(label_all_cons label_matcher_dict).
    destruct (_sanitize_scrape_configuration raw) as [san|]; cbn [bind];
      [|discriminate].
    destruct (expand san prefix hosts md) as [out|] eqn:X; cbn [bind];
      [|discriminate].
    destruct (label_all raws prefix hosts md) as [rest|]; cbn [bind];
      [|discriminate].
    intros H. injection H as <-.
    destruct (expand_same_up_to_order _ _ _ _ _ _ P X)
      as (entries & entries' & Hsc & X' & Hsame).
    destruct (IH rest eq_refl) as (rest' & -> & Hrest).
    rewrite X'. cbn [bind]. eexists. split; [reflexivity|].
    constructor; [|exact Hrest]. right. exists out, entries, entries'. auto.
Qed.

Lemma relation_config_same r r' v :
  same_snapshot r r' ->
  NoDup (dict_keys (unit_hosts (units r))) ->
  relation_config r = Ok v ->
  exists v',
    relation_config r' = Ok v' /\
    (v' = v \/
     exists configs configs',
       v = JList configs /\ v' = JList configs' /\
       Forall2 same_job_up_to_member_order configs configs').
Proof.
  intros (P & J & M) Hnd. unfold _static_scrape_config.
  rewrite <- J, <- M.
  rewrite <- (nonempty_length _ _ (Permutation_length P)).
  destruct (nonempty (units r)); cbn [negb]; [|intros H; eauto].
  destruct (truthy (scrape_jobs r)); cbn [negb]; [|intros H; eauto].
  destruct (truthy (scrape_metadata r)); cbn [negb]; [|intros H; eauto].
  destruct (identifier (scrape_metadata r)) as [prefix|]; cbn [bind];
    [|discriminate].
  destruct (py_iter (scrape_jobs r)) as [raws|]; cbn [bind]; [|discriminate].
  rewrite (relation_hosts_distinct r Hnd).
  rewrite (relation_hosts_distinct r' (unit_hosts_nodup _ _ P Hnd)).
  destruct (label_all raws prefix (unit_hosts (units r)) (scrape_metadata r))
    as [configs|] eqn:L; cbn [bind]; [|discriminate].
  intros H. injection H as <-.
  destruct (label_all_same _ _ _ _ _ (unit_hosts_permutation _ _ P) _ L)
    as (configs' & -> & Hsame).
  cbn [bind]. eexists. split; [reflexivity|]. right. eauto.
Qed.

Lemma aggregate_from_same rels rels' :
  Forall2 same_snapshot rels rels' ->
  Forall (fun r => NoDup (dict_keys (unit_hosts (units r)))) rels ->
  forall acc acc' out,
    Forall2 same_job_up_to_member_order acc acc' ->
    aggregate_from rels acc = Ok out ->
    exists out',
      aggregate_from rels' acc' = Ok out' /\
      Forall2 same_job_up_to_member_order out out'.
Proof.
  induction 1 as [|r r' rels rels' Hr _ IH]; intros Hnd acc acc' out Hacc.
  - intros H. injection H as <-. exists acc'. split; [reflexivity | exact Hacc].
  - inversion Hnd as [|? ? Hr1 Hrest]; subst.
    rewrite !(aggregate_from_cons identifier label_matcher_dict py_str).
    destruct (relation_config r) as [v|] eqn:V; cbn [bind]; [|discriminate].
    destruct (relation_config_same _ _ _ Hr Hr1 V)
      as (v' & -> & [->|(cs & cs' & -> & -> & Hcs)]); cbn [bind].
    + destruct (truthy v); [|now apply IH].
      destruct (py_iter v) as [items|]; cbn [bind]; [|discriminate].
      apply IH; [exact Hrest|]. apply Forall2_app; [exact Hacc|].
      apply same_job_refl.
    + assert (T : truthy (JList cs') = truthy (JList cs))
        by (destruct Hcs; reflexivity).
      rewrite T. destruct (truthy (JList cs)); [|now apply IH].
      cbn [py_iter bind]. apply IH; [exact Hrest|]. now apply Forall2_app.
Qed.

Lemma same_job_name (job job' : json) :
  same_job_up_to_member_order job job' -> job_name_of job' = job_name_of job.
Proof.
  intros [->|(d & entries & entries' & -> & _ & -> & _)]; [reflexivity|].
  simpl. apply dict_get_set_neq. discriminate.
Qed.

Lemma aggregate_same rels rels' out :
  Forall2 same_snapshot rels rels' ->
  Forall (fun r => NoDup (dict_keys (unit_hosts (units r)))) rels ->
  aggregate rels = Ok out ->
  exists out',
    aggregate rels' = Ok out' /\
    Forall2 same_job_up_to_member_order out out'.
Proof.
  intros Hs Hnd H.
  exact (aggregate_from_same rels rels' Hs Hnd [] [] out (Forall2_nil _) H).
Qed.


End OrderFacts.


